(** * Net worth projection calculator (app.py)

    A shallow embedding of [calculate_net_worth_projection] and of the
    sensitivity sweep of [main], over IEEE 754 binary64 numbers (the Python
    [float]), with the properties of the projection proved about it.

    Python floats are Rocq's primitive [float]s: [+], [-], [*] and [/] are the
    correctly rounded binary64 operations in both.  Years are Python [int]s,
    modelled by [Z]. *)

From Stdlib Require Import ZArith List Lia Bool Floats.
Import ListNotations.

Set Warnings "-inexact-float".

#[local] Open Scope Z_scope.

(** ** Python built-ins used by the source *)

Module Py.

(** [range(lo, hi)] on integers. *)
Definition range (lo hi : Z) : list Z :=
  map (fun k => lo + Z.of_nat k) (seq 0 (Z.to_nat (hi - lo))).

(** [range(lo, hi, step)] for a positive [step]. *)
Definition range_step (lo hi step : Z) : list Z :=
  map (fun k => lo + Z.of_nat k * step)
      (seq 0 (Z.to_nat ((hi - lo + step - 1) / step))).

(** The integer nearest to [n / d] ([0 <= n], [0 < d]), a tie going to the
    even neighbour. *)
Definition round_half_even_div (n d : Z) : Z :=
  let q := n / d in
  let r := n mod d in
  match 2 * r ?= d with
  | Lt => q
  | Gt => q + 1
  | Eq => if Z.even q then q else q + 1
  end.

(** A finite binary64 number of mantissa [m] and exponent [e] is
    [m * 2^e] with [-1074 <= e]: an integer count of units of [2^-1074]. *)
Definition scaled (m : positive) (e : Z) : Z := Zpos m * 2 ^ (e + 1074).

(** The number of hundredths nearest to the exact value [m * 2^e]. *)
Definition hundredths (m : positive) (e : Z) : Z :=
  round_half_even_div (100 * scaled m e) (2 ^ 1074).

Definition quotient_bits : Z := 64.

(** The binary64 number nearest to [N / 100], with sign [s].  The quotient
    is taken with [quotient_bits] fractional bits and one sticky bit that
    records a non-zero remainder, which is more than the 53 bits kept, so
    that the final rounding (to nearest, ties to even) is the correct
    rounding of the exact quotient. *)
Definition nearest_hundredth (s : bool) (N : Z) : spec_float :=
  let q := (N * 2 ^ quotient_bits) / 100 in
  let r := (N * 2 ^ quotient_bits) mod 100 in
  let sticky := if r =? 0 then 0 else 1 in
  match 2 * q + sticky with
  | Zpos p =>
      binary_round_aux prec emax s (Zpos p) (- (quotient_bits + 1)) loc_Exact
  | _ => S754_zero s
  end.

(** [round(x, 2)] on a float: the exact value of [x] is rounded to the
    nearest multiple of 0.01 (half to even) and the float nearest to that
    decimal is returned; infinities and NaN round to themselves and the
    sign of a zero result is the sign of [x]. *)
Definition round2 (x : float) : float :=
  match Prim2SF x with
  | S754_finite s m e => SF2Prim (nearest_hundredth s (hundredths m e))
  | _ => x
  end.

(** The float of an integer, exact below [2^53] in absolute value. *)
Definition float_of_int (z : Z) : float :=
  match z with
  | Z0 => 0%float
  | Zpos _ => of_uint63 (Uint63.of_Z z)
  | Zneg p => (- of_uint63 (Uint63.of_Z (Zpos p)))%float
  end.

(** [a / b] on two integers below [2^53]: the correctly rounded quotient. *)
Definition true_div (a b : Z) : float :=
  (float_of_int a / float_of_int b)%float.

(** What a call does: it returns a value or raises. *)
Inductive exception : Set := IndexError.

Inductive outcome (A : Type) : Type :=
| Returned (a : A)
| Raised (e : exception).

Arguments Returned {A} a.
Arguments Raised {A} e.

Definition bind {A B} (o : outcome A) (k : A -> outcome B) : outcome B :=
  match o with
  | Returned a => k a
  | Raised e => Raised e
  end.

End Py.

Notation "x <- c1 ;; c2" := (Py.bind c1 (fun x => c2))
  (at level 61, c1 at next level, right associativity).

(** ** The projection *)

(** One row of the returned data frame: the dictionary [current_state]. *)
Record YearlySnapshot : Set := {
  Year : Z;
  Net_Worth : float;
  Salary : float;
  Dividend_Income : float;
  Total_Income : float;
  After_tax_Income : float;
  Expenses : float;
  Savings : float
}.

Definition DataFrame : Set := list YearlySnapshot.

(** The variables the loop of [calculate_net_worth_projection] updates. *)
Record loop_vars : Set := {
  current_net_worth : float;
  current_salary : float;
  data : list YearlySnapshot
}.

Section Loop.

#[local] Open Scope float_scope.

Variables salary_growth_rate asset_growth_rate : float.
Variables dividend_yield tax_rate expense_ratio : float.

(** The body of [for year in years]. *)
Definition loop_body (v : loop_vars) (year : Z) : loop_vars :=
  let dividend_income := current_net_worth v * dividend_yield in
  let total_income := current_salary v + dividend_income in
  let after_tax_income := total_income * (1 - tax_rate) in
  let expenses := after_tax_income * expense_ratio in
  let savings := after_tax_income - expenses in
  let current_state :=
    {| Year := year;
       Net_Worth := Py.round2 (current_net_worth v);
       Salary := Py.round2 (current_salary v);
       Dividend_Income := Py.round2 dividend_income;
       Total_Income := Py.round2 total_income;
       After_tax_Income := Py.round2 after_tax_income;
       Expenses := Py.round2 expenses;
       Savings := Py.round2 savings |} in
  let current_net_worth1 := current_net_worth v + savings in
  let current_net_worth2 := current_net_worth1 * (1 + asset_growth_rate) in
  let current_salary1 := current_salary v * (1 + salary_growth_rate) in
  {| current_net_worth := current_net_worth2;
     current_salary := current_salary1;
     data := data v ++ [current_state] |}.

End Loop.

Definition calculate_net_worth_projection
    (initial_net_worth initial_salary : float)
    (salary_growth_rate asset_growth_rate : float)
    (dividend_yield tax_rate expense_ratio : float)
    (start_year end_year : Z) : DataFrame :=
  let years := Py.range start_year (end_year + 1) in
  let v0 := {| current_net_worth := initial_net_worth;
               current_salary := initial_salary;
               data := [] |} in
  data (fold_left
          (loop_body salary_growth_rate asset_growth_rate
                     dividend_yield tax_rate expense_ratio)
          years v0).

(** A call of [calculate_net_worth_projection] seen as an outcome.  The body
    has no [raise]; float arithmetic, [round(x, 2)] on a float, [range] on
    integers and [append] raise nothing, so every call returns. *)
Definition call_projection
    (initial_net_worth initial_salary : float)
    (salary_growth_rate asset_growth_rate : float)
    (dividend_yield tax_rate expense_ratio : float)
    (start_year end_year : Z) : Py.outcome DataFrame :=
  Py.Returned
    (calculate_net_worth_projection initial_net_worth initial_salary
       salary_growth_rate asset_growth_rate dividend_yield tax_rate
       expense_ratio start_year end_year).

(** ** The sensitivity sweep of [main] *)

(** [df.iloc[-1]]: the last row, [IndexError] on an empty frame. *)
Definition iloc_last (df : DataFrame) : Py.outcome YearlySnapshot :=
  match rev df with
  | [] => Py.Raised Py.IndexError
  | r :: _ => Py.Returned r
  end.

Definition tax_rates : list Z := Py.range_step 20 51 5.
Definition growth_rates : list Z := Py.range_step 4 21 2.

Section Sweep.

#[local] Open Scope float_scope.

(** The widget values read by [main]: rates are percentages there. *)
Variables initial_net_worth initial_salary : float.
Variables salary_growth dividend_yield expense_ratio : float.
Variables start_year end_year : Z.

(** The call inside the two loops, and the cell it appends. *)
Definition sweep_cell (growth tax : Z) : Py.outcome float :=
  result <- call_projection initial_net_worth initial_salary
              (salary_growth / 100) (Py.true_div growth 100)
              (dividend_yield / 100) (Py.true_div tax 100)
              (expense_ratio / 100) start_year end_year ;;
  r <- iloc_last result ;;
  Py.Returned (Net_Worth r).

(** [for tax in tax_rates: row_data.append(...)]. *)
Fixpoint sweep_row (growth : Z) (taxes : list Z) (row_data : list float)
  : Py.outcome (list float) :=
  match taxes with
  | [] => Py.Returned row_data
  | tax :: taxes' =>
      c <- sweep_cell growth tax ;;
      sweep_row growth taxes' (row_data ++ [c])
  end.

(** [for growth in growth_rates: ... sensitivity_data.append(row_data)]. *)
Fixpoint sweep_rows (growths taxes : list Z)
    (sensitivity_data : list (list float)) : Py.outcome (list (list float)) :=
  match growths with
  | [] => Py.Returned sensitivity_data
  | growth :: growths' =>
      row_data <- sweep_row growth taxes [] ;;
      sweep_rows growths' taxes (sensitivity_data ++ [row_data])
  end.

(** The table [main] builds, over its two fixed grids. *)
Definition sensitivity_data : Py.outcome (list (list float)) :=
  sweep_rows growth_rates tax_rates [].

End Sweep.

(** ** Auxiliary definitions for the statements *)

Section Statements.

#[local] Open Scope float_scope.

Variables initial_net_worth initial_salary : float.
Variables salary_growth_rate asset_growth_rate : float.
Variables dividend_yield tax_rate expense_ratio : float.

(** The dictionary [current_state] built from the loop variables [v]. *)
Definition current_state_of (v : loop_vars) (year : Z) : YearlySnapshot :=
  let dividend_income := current_net_worth v * dividend_yield in
  let total_income := current_salary v + dividend_income in
  let after_tax_income := total_income * (1 - tax_rate) in
  let expenses := after_tax_income * expense_ratio in
  let savings := after_tax_income - expenses in
  {| Year := year;
     Net_Worth := Py.round2 (current_net_worth v);
     Salary := Py.round2 (current_salary v);
     Dividend_Income := Py.round2 dividend_income;
     Total_Income := Py.round2 total_income;
     After_tax_Income := Py.round2 after_tax_income;
     Expenses := Py.round2 expenses;
     Savings := Py.round2 savings |}.

(** The rows appended by the loop run over [years] from the variables [v]. *)
Fixpoint rows_from (years : list Z) (v : loop_vars) : list YearlySnapshot :=
  match years with
  | [] => []
  | year :: years' =>
      current_state_of v year
      :: rows_from years'
           (loop_body salary_growth_rate asset_growth_rate dividend_yield
                      tax_rate expense_ratio v year)
  end.

(** The loop variables on entry to the iteration of index [k] (the first
    iteration has index 0). *)
Definition loop_entry (start_year end_year : Z) (k : nat) : loop_vars :=
  fold_left
    (loop_body salary_growth_rate asset_growth_rate dividend_yield tax_rate
               expense_ratio)
    (firstn k (Py.range start_year (end_year + 1)))
    {| current_net_worth := initial_net_worth;
       current_salary := initial_salary;
       data := [] |}.

(** The savings of a year, in full precision, from its net worth and
    salary. *)
Definition full_savings (net_worth salary : float) : float :=
  let after_tax_income :=
    (salary + net_worth * dividend_yield) * (1 - tax_rate) in
  after_tax_income - after_tax_income * expense_ratio.

(** One year's advance of the pair (net worth, salary): no rounding in it. *)
Definition advance (st : float * float) : float * float :=
  ((fst st + full_savings (fst st) (snd st)) * (1 + asset_growth_rate),
   snd st * (1 + salary_growth_rate)).

(** The pair (net worth, salary) after [k] years. *)
Definition running_state (k : nat) : float * float :=
  Nat.iter k advance (initial_net_worth, initial_salary).

End Statements.

(** The net worth of the last row of a frame ([0] for an empty frame, which
    [iloc_last] refuses). *)
Definition final_net_worth (df : DataFrame) : float :=
  match rev df with
  | [] => 0%float
  | r :: _ => Net_Worth r
  end.

(** A float that is not negative: NaN, or at least zero. *)
Definition not_negative (x : float) : Prop :=
  is_nan x = true \/ (0 <=? x)%float = true.

(** ** The rest of [main]: the base run and the summary *)

(** [df.iloc[0]]: the first row, [IndexError] on an empty frame. *)
Definition iloc_first (df : DataFrame) : Py.outcome YearlySnapshot :=
  match df with
  | [] => Py.Raised Py.IndexError
  | r :: _ => Py.Returned r
  end.

(** The two amounts that one [st.metric] call formats as dollars: the value
    shown and the change shown under it. *)
Record metric : Set := {
  metric_value : float;
  metric_delta : float
}.

(** The three metrics of the summary, in the order of the columns. *)
Record summary : Set := {
  total_net_worth_growth : metric;
  final_annual_salary : metric;
  final_annual_dividend_income : metric
}.

(** The base run of [main]: the widgets give the five rates as
    percentages, divided by 100 for the call. *)
Definition main_projection
    (initial_net_worth initial_salary : float)
    (salary_growth asset_growth dividend_yield tax_rate expense_ratio : float)
    (start_year end_year : Z) : Py.outcome DataFrame :=
  call_projection initial_net_worth initial_salary
    (salary_growth / 100) (asset_growth / 100) (dividend_yield / 100)
    (tax_rate / 100) (expense_ratio / 100) start_year end_year.

(** The summary statistics: the last and the first row of the frame, and
    for net worth, salary and dividend income the final amount with its
    change since the first row. *)
Definition summary_statistics (df : DataFrame) : Py.outcome summary :=
  final_year <- iloc_last df ;;
  first_year <- iloc_first df ;;
  Py.Returned
    {| total_net_worth_growth :=
         {| metric_value := Net_Worth final_year;
            metric_delta := (Net_Worth final_year - Net_Worth first_year)
                            %float |};
       final_annual_salary :=
         {| metric_value := Salary final_year;
            metric_delta := (Salary final_year - Salary first_year)%float |};
       final_annual_dividend_income :=
         {| metric_value := Dividend_Income final_year;
            metric_delta := (Dividend_Income final_year
                             - Dividend_Income first_year)%float |} |}.

(** What [main] computes for its displays: the base frame, the sensitivity
    table and the summary statistics, in the order of the source. *)
Definition main_outputs
    (initial_net_worth initial_salary : float)
    (salary_growth asset_growth dividend_yield tax_rate expense_ratio : float)
    (start_year end_year : Z)
  : Py.outcome (DataFrame * list (list float) * summary) :=
  df <- main_projection initial_net_worth initial_salary salary_growth
          asset_growth dividend_yield tax_rate expense_ratio start_year
          end_year ;;
  table <- sensitivity_data initial_net_worth initial_salary salary_growth
             dividend_yield expense_ratio start_year end_year ;;
  s <- summary_statistics df ;;
  Py.Returned (df, table, s).

(** A row moved [d] years later. *)
Definition shift_year (d : Z) (r : YearlySnapshot) : YearlySnapshot :=
  {| Year := Year r + d;
     Net_Worth := Net_Worth r;
     Salary := Salary r;
     Dividend_Income := Dividend_Income r;
     Total_Income := Total_Income r;
     After_tax_Income := After_tax_Income r;
     Expenses := Expenses r;
     Savings := Savings r |}.

(** ** Auxiliary definitions for binary64 rounding *)

(** The record after [n + 1] one-bit shifts of [m]. *)
Definition shifted (m : Z) (n : nat) : shr_record :=
  {| shr_m := m / 2 ^ Z.of_nat (S n);
     shr_r := Z.odd (m / 2 ^ Z.of_nat n);
     shr_s := negb (m mod 2 ^ Z.of_nat n =? 0) |}.

(** The float of sign [s], mantissa [q] and exponent [E], for a rounded
    mantissa [0 <= q <= 2^53]: zero for [q = 0], one more exponent for the
    carry [q = 2^53], infinity above the largest exponent. *)
Definition pack (s : bool) (q E : Z) : spec_float :=
  match q with
  | Zpos p =>
      if q <? 2 ^ 53 then
        if E <=? 971 then S754_finite s p E else S754_infinity s
      else
        if E + 1 <=? 971 then S754_finite s 4503599627370496 (E + 1)
        else S754_infinity s
  | _ => S754_zero s
  end.

(** The binary64 number nearest to [V * 2^-k] ([0 < V]), ties to even: the
    exponent is fixed by the number of binary digits of [V], and the
    mantissa is [V] divided at that exponent, rounded half to even. *)
Definition rnd (s : bool) (k V : Z) : spec_float :=
  let E := fexp prec emax (Z.log2 V + 1 - k) in
  pack s (Py.round_half_even_div V (2 ^ (E + k))) E.

(** Not negative: a zero of either sign, a positive number, [+infinity] or
    NaN. *)
Definition sf_not_neg (x : spec_float) : bool :=
  match x with
  | S754_finite true _ _ | S754_infinity true => false
  | _ => true
  end.

(** At least zero: not negative and not NaN. *)
Definition sf_ge0 (x : spec_float) : bool :=
  match x with
  | S754_zero _ | S754_finite false _ _ | S754_infinity false => true
  | _ => false
  end.

(** The floats [1.0] and [sys.float_info.max], unpacked. *)
Definition sf_one : spec_float := S754_finite false 4503599627370496 (-52).

Definition sf_max : spec_float := S754_finite false 9007199254740991 971.

(** [round(x, 2)] on the unpacked float. *)
Definition sf_round2 (x : spec_float) : spec_float :=
  match x with
  | S754_finite s m e => Py.nearest_hundredth s (Py.hundredths m e)
  | _ => x
  end.

(** The quotient [N * 2^64 / 100] with its sticky bit. *)
Definition sticky_quotient (N : Z) : Z :=
  2 * ((N * 2 ^ 64) / 100) + (if (N * 2 ^ 64) mod 100 =? 0 then 0 else 1).

(** * Binary64 arithmetic *)

(** ** Round half even on integers *)

Lemma rhe_bounds n d :
  0 < d -> n / d <= Py.round_half_even_div n d <= n / d + 1.
Proof.
  intros Hd. unfold Py.round_half_even_div.
  destruct (2 * (n mod d) ?= d); [destruct (Z.even (n / d))| |]; lia.
Qed.

Lemma rhe_exact q d : 0 < d -> Py.round_half_even_div (q * d) d = q.
Proof.
  intros Hd. unfold Py.round_half_even_div.
  rewrite Z.mod_mul, Z.div_mul by lia.
  change (2 * 0) with 0.
  destruct d; try lia. reflexivity.
Qed.

Lemma rhe_scale n d c :
  0 < d -> 0 < c ->
  Py.round_half_even_div (n * c) (d * c) = Py.round_half_even_div n d.
Proof.
  intros Hd Hc. unfold Py.round_half_even_div.
  rewrite Z.div_mul_cancel_r by lia.
  rewrite Z.mul_mod_distr_r by lia.
  replace (2 * (n mod d * c) ?= d * c) with (2 * (n mod d) ?= d);
    [reflexivity|].
  destruct (Z.compare_spec (2 * (n mod d)) d) as [H|H|H]; symmetry.
  - apply Z.compare_eq_iff. nia.
  - apply Z.compare_lt_iff. nia.
  - apply Z.compare_gt_iff. nia.
Qed.

Lemma rhe_mono n n' d :
  0 < d -> n <= n' -> Py.round_half_even_div n d <= Py.round_half_even_div n' d.
Proof.
  intros Hd Hn.
  assert (Hq : n / d <= n' / d) by (apply Z.div_le_mono; lia).
  destruct (Z.eq_dec (n / d) (n' / d)) as [Heq|Hne].
  - assert (Hr : n mod d <= n' mod d).
    { rewrite (Z.div_mod n d), (Z.div_mod n' d) in Hn by lia.
      rewrite Heq in Hn. lia. }
    unfold Py.round_half_even_div. rewrite <- Heq.
    destruct (Z.compare_spec (2 * (n mod d)) d);
      destruct (Z.compare_spec (2 * (n' mod d)) d);
      destruct (Z.even (n / d)); lia.
  - pose proof (rhe_bounds n d Hd). pose proof (rhe_bounds n' d Hd). lia.
Qed.

Lemma rhe_le_int n d b :
  0 < d -> n <= b * d -> Py.round_half_even_div n d <= b.
Proof.
  intros Hd Hn. rewrite <- (rhe_exact b d Hd). now apply rhe_mono.
Qed.

Lemma rhe_ge_int n d b :
  0 < d -> b * d <= n -> b <= Py.round_half_even_div n d.
Proof.
  intros Hd Hn. rewrite <- (rhe_exact b d Hd). now apply rhe_mono.
Qed.

(** ** Digits *)

Lemma digits2_log2 (m : positive) :
  Zpos (digits2_pos m) = Z.log2 (Zpos m) + 1.
Proof.
  induction m as [m IH|m IH|]; simpl; try reflexivity.
  - rewrite Pos2Z.inj_succ, IH. destruct m; simpl; lia.
  - rewrite Pos2Z.inj_succ, IH. destruct m; simpl; lia.
Qed.

(** ** Right shifts with a round and a sticky bit *)

Lemma iter_pos_nat {A} (f : A -> A) (p : positive) (x : A) :
  iter_pos f p x = Nat.iter (Pos.to_nat p) f x.
Proof.
  revert x. induction p as [p IH|p IH|]; intros x; cbn [iter_pos].
  - rewrite !IH, Pos2Nat.inj_xI, Nat.iter_succ_r.
    replace (2 * Pos.to_nat p)%nat with (Pos.to_nat p + Pos.to_nat p)%nat
      by lia.
    now rewrite Nat.iter_add.
  - rewrite !IH, Pos2Nat.inj_xO.
    replace (2 * Pos.to_nat p)%nat with (Pos.to_nat p + Pos.to_nat p)%nat
      by lia.
    now rewrite Nat.iter_add.
  - reflexivity.
Qed.

Lemma shr_1_spec (q : Z) (r s : bool) :
  0 <= q ->
  shr_1 {| shr_m := q; shr_r := r; shr_s := s |}
  = {| shr_m := q / 2; shr_r := Z.odd q; shr_s := r || s |}.
Proof.
  intros Hq. rewrite <- Z.div2_div.
  destruct q as [|p|p]; [reflexivity| |lia].
  destruct p; reflexivity.
Qed.

Lemma shr_iter_spec (m : Z) (n : nat) :
  0 <= m ->
  Nat.iter (S n) shr_1 {| shr_m := m; shr_r := false; shr_s := false |}
  = shifted m n.
Proof.
  intros Hm. induction n as [|n IH].
  - unfold Nat.iter. cbn [nat_rect]. rewrite shr_1_spec by lia.
    unfold shifted.
    change (2 ^ Z.of_nat 1) with 2. change (2 ^ Z.of_nat 0) with 1.
    rewrite Z.div_1_r, Z.mod_1_r. reflexivity.
  - rewrite Nat.iter_succ, IH. unfold shifted.
    rewrite shr_1_spec by (apply Z.div_pos; lia).
    rewrite Z.div_div by lia.
    replace (2 ^ Z.of_nat (S n) * 2) with (2 ^ Z.of_nat (S (S n)))
      by (rewrite (Nat2Z.inj_succ (S n)), Z.pow_succ_r; lia).
    f_equal.
    assert (H2 : 2 ^ Z.of_nat (S n) = 2 ^ Z.of_nat n * 2)
      by (rewrite Nat2Z.inj_succ, Z.pow_succ_r; lia).
    rewrite H2, Z.rem_mul_r by lia.
    assert (Hn : 0 < 2 ^ Z.of_nat n) by (apply Z.pow_pos_nonneg; lia).
    pose proof (Z.mod_pos_bound m (2 ^ Z.of_nat n) Hn) as Hr.
    rewrite Zodd_mod.
    pose proof (Z.mod_pos_bound (m / 2 ^ Z.of_nat n) 2 ltac:(lia)) as Hb.
    destruct (Z.eqb_spec ((m / 2 ^ Z.of_nat n) mod 2) 1) as [H1|H1].
    + rewrite H1. simpl.
      destruct (Z.eqb_spec (m mod 2 ^ Z.of_nat n + 2 ^ Z.of_nat n * 1) 0);
        [lia|reflexivity].
    + replace ((m / 2 ^ Z.of_nat n) mod 2) with 0 by lia.
      simpl. now rewrite Z.mul_0_r, Z.add_0_r.
Qed.

Lemma round_shifted (m : Z) (n : nat) :
  0 <= m ->
  round_nearest_even (shr_m (shifted m n)) (loc_of_shr_record (shifted m n))
  = Py.round_half_even_div m (2 ^ Z.of_nat (S n)).
Proof.
  intros Hm. unfold shifted, Py.round_half_even_div. cbn [shr_m].
  assert (H2 : 2 ^ Z.of_nat (S n) = 2 ^ Z.of_nat n * 2)
    by (rewrite Nat2Z.inj_succ, Z.pow_succ_r; lia).
  assert (Hn : 0 < 2 ^ Z.of_nat n) by (apply Z.pow_pos_nonneg; lia).
  pose proof (Z.mod_pos_bound m (2 ^ Z.of_nat n) Hn) as Hr.
  pose proof (Z.mod_pos_bound (m / 2 ^ Z.of_nat n) 2 ltac:(lia)) as Hb.
  rewrite !H2, Z.rem_mul_r by lia.
  set (q := m / (2 ^ Z.of_nat n * 2)).
  rewrite Zodd_mod.
  destruct (Z.eqb_spec ((m / 2 ^ Z.of_nat n) mod 2) 1) as [H1|H1].
  - rewrite H1.
    destruct (Z.eqb_spec (m mod 2 ^ Z.of_nat n) 0) as [H0|H0];
      cbv [loc_of_shr_record round_nearest_even negb].
    + rewrite H0.
      replace (2 * (0 + 2 ^ Z.of_nat n * 1)) with (2 ^ Z.of_nat n * 2) by lia.
      now rewrite Z.compare_refl.
    + destruct (Z.compare_spec
                  (2 * (m mod 2 ^ Z.of_nat n + 2 ^ Z.of_nat n * 1))
                  (2 ^ Z.of_nat n * 2)); [lia|lia|reflexivity].
  - replace ((m / 2 ^ Z.of_nat n) mod 2) with 0 by lia.
    rewrite Z.mul_0_r, Z.add_0_r.
    destruct (Z.compare_spec (2 * (m mod 2 ^ Z.of_nat n))
                (2 ^ Z.of_nat n * 2)); [lia| |lia].
    destruct (Z.eqb_spec (m mod 2 ^ Z.of_nat n) 0);
      cbv [loc_of_shr_record round_nearest_even negb]; reflexivity.
Qed.

(** ** The rounding of binary64, in closed form *)

Lemma fexp_eq (x : Z) : fexp prec emax x = Z.max (x - 53) (-1074).
Proof. reflexivity. Qed.

Lemma log2_bounds (m : Z) :
  0 < m -> 2 ^ Z.log2 m <= m < 2 ^ (Z.log2 m + 1).
Proof.
  intros Hm. pose proof (Z.log2_spec m Hm) as H.
  now rewrite <- Z.add_1_r in H.
Qed.

Lemma pow2_pos (a : Z) : 0 <= a -> 0 < 2 ^ a.
Proof. intros. apply Z.pow_pos_nonneg; lia. Qed.

Lemma binary_round_aux_closed (s : bool) (m : positive) (e : Z) :
  let E := fexp prec emax (Zpos (digits2_pos m) + e) in
  e <= E ->
  binary_round_aux prec emax s (Zpos m) e loc_Exact
  = pack s (Py.round_half_even_div (Zpos m) (2 ^ (E - e))) E.
Proof.
  intros E HE.
  assert (HEdef : E = Z.max (Z.log2 (Zpos m) + 1 + e - 53) (-1074))
    by (unfold E; now rewrite fexp_eq, digits2_log2).
  pose proof (log2_bounds (Zpos m) ltac:(lia)) as Hlog.
  pose proof (Z.log2_nonneg (Zpos m)) as Hl0.
  unfold binary_round_aux, shr_fexp. cbn [Zdigits2]. fold E.
  cbn [shr_record_of_loc].
  destruct (E - e) as [|p|p] eqn:Hn; [| |lia].
  - (* no shift *)
    cbn [shr shr_m loc_of_shr_record round_nearest_even Zdigits2].
    fold E. rewrite Hn. cbn [shr shr_m].
    change (2 ^ 0) with 1.
    replace (Py.round_half_even_div (Z.pos m) 1) with (Zpos m)
      by (symmetry; rewrite <- (Z.mul_1_r (Zpos m)) at 1;
          apply rhe_exact; lia).
    assert (HE' : E = e) by lia.
    assert (Hm : Zpos m < 2 ^ 53).
    { assert (Z.log2 (Zpos m) + 1 <= 53) by lia.
      apply Z.lt_le_trans with (2 ^ (Z.log2 (Zpos m) + 1)); [lia|].
      apply Z.pow_le_mono_r; lia. }
    unfold pack. rewrite (proj2 (Z.ltb_lt _ _) Hm), HE'. reflexivity.
  - (* a shift by [p] bits *)
    cbn [shr]. rewrite iter_pos_nat.
    destruct (Pos.to_nat p) as [|n] eqn:Hp; [lia|].
    rewrite shr_iter_spec by lia.
    rewrite round_shifted by lia.
    replace (Z.of_nat (S n)) with (Zpos p) by lia.
    replace (e + Zpos p) with E by lia.
    remember (Py.round_half_even_div (Zpos m) (2 ^ Zpos p)) as q eqn:Hqdef.
    assert (Hq : 0 <= q <= 2 ^ 53).
    { pose proof (pow2_pos (Zpos p) ltac:(lia)) as Hpp.
      pose proof (rhe_bounds (Zpos m) (2 ^ Zpos p) Hpp) as Hb.
      rewrite <- Hqdef in Hb.
      assert (0 <= Zpos m / 2 ^ Zpos p) by (apply Z.div_pos; lia).
      assert (Zpos m / 2 ^ Zpos p < 2 ^ 53).
      { apply Z.div_lt_upper_bound; [lia|].
        rewrite <- Z.pow_add_r by lia.
        apply Z.lt_le_trans with (2 ^ (Z.log2 (Zpos m) + 1)); [lia|].
        apply Z.pow_le_mono_r; lia. }
      lia. }
    unfold shr_fexp. rewrite fexp_eq.
    clear Hqdef. destruct q as [|q|q]; [| |lia].
    + cbn [Zdigits2 shr_record_of_loc].
      destruct (Z.max (0 + E - 53) (-1074) - E) eqn:Hd; try lia;
        reflexivity.
    + cbn [Zdigits2 shr_record_of_loc]. rewrite digits2_log2.
      pose proof (log2_bounds (Zpos q) ltac:(lia)) as Hlq.
      pose proof (Z.log2_nonneg (Zpos q)) as Hlq0.
      unfold pack.
      destruct (Z.ltb_spec (Zpos q) (2 ^ 53)) as [Hlt|Hge].
      * assert (Z.log2 (Zpos q) < 53).
        { apply (Z.pow_lt_mono_r_iff 2); lia. }
        destruct (Z.max (Z.log2 (Z.pos q) + 1 + E - 53) (-1074) - E) eqn:Hd;
          try lia; reflexivity.
      * assert (Hq53 : Zpos q = 2 ^ 53) by lia.
        inversion Hq53 as [Hq']. 
        change (Z.log2 (Zpos 9007199254740992)) with 53.
        replace (Z.max (53 + 1 + E - 53) (-1074) - E) with 1 by lia.
        reflexivity.
Qed.

Lemma valid_finite (s : bool) (m : positive) (e : Z) :
  valid_binary (S754_finite s m e) = true ->
  -1074 <= e <= 971 /\
  Z.log2 (Zpos m) + 1 <= 53 /\
  (Z.log2 (Zpos m) + 1 = 53 \/ e = -1074).
Proof.
  cbn [SpecFloat.valid_binary]. unfold bounded, canonical_mantissa.
  rewrite andb_true_iff, Z.eqb_eq, Z.leb_le, fexp_eq, digits2_log2.
  change (emax - prec) with 971. lia.
Qed.

Lemma finite_valid (s : bool) (m : positive) (e : Z) :
  -1074 <= e <= 971 ->
  Z.log2 (Zpos m) + 1 <= 53 ->
  (Z.log2 (Zpos m) + 1 = 53 \/ e = -1074) ->
  valid_binary (S754_finite s m e) = true.
Proof.
  intros He Hd Hc.
  cbn [SpecFloat.valid_binary]. unfold bounded, canonical_mantissa.
  rewrite andb_true_iff, Z.eqb_eq, Z.leb_le, fexp_eq, digits2_log2.
  change (emax - prec) with 971. lia.
Qed.

Lemma log2_lt_pow2 (m a : Z) : 0 < m -> m < 2 ^ a -> Z.log2 m < a.
Proof.
  intros Hm Hlt. destruct (Z.le_gt_cases a (Z.log2 m)) as [Hle|]; [|lia].
  exfalso. pose proof (log2_bounds m Hm) as Hb.
  assert (0 <= a \/ a < 0) as [Ha|Ha] by lia.
  - assert (2 ^ a <= 2 ^ Z.log2 m) by (apply Z.pow_le_mono_r; lia). lia.
  - rewrite Z.pow_neg_r in Hlt by lia. lia.
Qed.

Lemma log2_ge_pow2 (m a : Z) : 0 <= a -> 2 ^ a <= m -> a <= Z.log2 m.
Proof.
  intros Ha Hle. apply Z.log2_le_pow2; [|exact Hle].
  pose proof (pow2_pos a Ha). lia.
Qed.

Lemma binary_round_aux_rnd (s : bool) (m : positive) (e k : Z) :
  0 <= e + k ->
  e <= fexp prec emax (Zpos (digits2_pos m) + e) ->
  binary_round_aux prec emax s (Zpos m) e loc_Exact
  = rnd s k (Zpos m * 2 ^ (e + k)).
Proof.
  intros Hk HE. rewrite binary_round_aux_closed by exact HE.
  unfold rnd. rewrite Z.log2_mul_pow2 by lia.
  rewrite digits2_log2 in *.
  replace (e + k + Z.log2 (Zpos m) + 1 - k) with (Z.log2 (Zpos m) + 1 + e)
    by lia.
  set (E := fexp prec emax (Z.log2 (Zpos m) + 1 + e)) in *.
  f_equal.
  replace (2 ^ (E + k)) with (2 ^ (E - e) * 2 ^ (e + k))
    by (rewrite <- Z.pow_add_r by lia; f_equal; lia).
  symmetry. apply rhe_scale; apply pow2_pos; lia.
Qed.

Lemma pos_iter_xO (m d : positive) :
  Zpos (Pos.iter xO m d) = Zpos m * 2 ^ Zpos d.
Proof.
  induction d as [|d IH] using Pos.peano_ind.
  - simpl. lia.
  - rewrite Pos.iter_succ, Pos2Z.inj_xO, IH, Pos2Z.inj_succ, Z.pow_succ_r
      by lia. lia.
Qed.

Lemma binary_round_rnd (s : bool) (m : positive) (e k : Z) :
  0 <= e + k -> 1074 <= k ->
  binary_round prec emax s m e = rnd s k (Zpos m * 2 ^ (e + k)).
Proof.
  intros Hk Hk'. unfold binary_round, shl_align.
  set (E := fexp prec emax (Zpos (digits2_pos m) + e)).
  assert (HE : E = Z.max (Z.log2 (Zpos m) + 1 + e - 53) (-1074))
    by (unfold E; now rewrite fexp_eq, digits2_log2).
  destruct (E - e) as [|d|d] eqn:Hd.
  - apply binary_round_aux_rnd; [lia|fold E; lia].
  - apply binary_round_aux_rnd; [lia|fold E; lia].
  - assert (Hz : Zpos (Pos.iter xO m d) = Zpos m * 2 ^ (e - E)).
    { rewrite pos_iter_xO. f_equal. f_equal. lia. }
    rewrite (binary_round_aux_rnd s _ E k).
    + rewrite Hz, <- Z.mul_assoc, <- Z.pow_add_r by lia.
      now replace (e - E + (E + k)) with (e + k) by lia.
    + lia.
    + rewrite fexp_eq, digits2_log2, Hz, Z.log2_mul_pow2 by lia. lia.
Qed.

Lemma mul_exponent_ok (sx sy : bool) (mx my : positive) (ex ey : Z) :
  valid_binary (S754_finite sx mx ex) = true ->
  valid_binary (S754_finite sy my ey) = true ->
  ex + ey <= fexp prec emax (Zpos (digits2_pos (mx * my)) + (ex + ey)).
Proof.
  intros Hx Hy. apply valid_finite in Hx, Hy.
  rewrite fexp_eq, digits2_log2, Pos2Z.inj_mul.
  pose proof (Z.log2_mul_below (Zpos mx) (Zpos my) ltac:(lia) ltac:(lia)).
  pose proof (Z.log2_nonneg (Zpos mx)). pose proof (Z.log2_nonneg (Zpos my)).
  lia.
Qed.

Lemma SFmul_finite (sx sy : bool) (mx my : positive) (ex ey k : Z) :
  valid_binary (S754_finite sx mx ex) = true ->
  valid_binary (S754_finite sy my ey) = true ->
  2148 <= k ->
  SF64mul (S754_finite sx mx ex) (S754_finite sy my ey)
  = rnd (xorb sx sy) k (Zpos mx * Zpos my * 2 ^ (ex + ey + k)).
Proof.
  intros Hx Hy Hk. unfold SF64mul. cbn [SFmul].
  rewrite (binary_round_aux_rnd _ _ _ k).
  - now rewrite Pos2Z.inj_mul.
  - apply valid_finite in Hx, Hy. lia.
  - now apply (mul_exponent_ok sx sy).
Qed.

(** ** Properties of the rounding *)

Section Rnd.

Variables (k V : Z).
Hypothesis Hk : 1074 <= k.
Hypothesis HV : 0 < V.

Let E := fexp prec emax (Z.log2 V + 1 - k).
Let q := Py.round_half_even_div V (2 ^ (E + k)).

Lemma rnd_exponent : E = Z.max (Z.log2 V + 1 - k - 53) (-1074).
Proof. unfold E. now rewrite fexp_eq. Qed.

Lemma rnd_mantissa_bounds : 0 <= q <= 2 ^ 53.
Proof.
  pose proof rnd_exponent as HE.
  pose proof (log2_bounds V HV) as Hlog.
  pose proof (Z.log2_nonneg V) as Hl0.
  pose proof (pow2_pos (E + k) ltac:(lia)) as Hp.
  pose proof (rhe_bounds V (2 ^ (E + k)) Hp) as Hb. fold q in Hb.
  assert (0 <= V / 2 ^ (E + k)) by (apply Z.div_pos; lia).
  assert (V / 2 ^ (E + k) < 2 ^ 53).
  { apply Z.div_lt_upper_bound; [lia|].
    rewrite <- Z.pow_add_r by lia.
    apply Z.lt_le_trans with (2 ^ (Z.log2 V + 1)); [lia|].
    apply Z.pow_le_mono_r; lia. }
  lia.
Qed.

Lemma rnd_mantissa_normal : -1074 < E -> 2 ^ 52 <= q.
Proof.
  intros Hn. pose proof rnd_exponent as HE.
  pose proof (log2_bounds V HV) as Hlog.
  pose proof (pow2_pos (E + k) ltac:(lia)) as Hp.
  unfold q. apply rhe_ge_int; [exact Hp|].
  rewrite <- Z.pow_add_r by lia.
  replace (52 + (E + k)) with (Z.log2 V) by lia. lia.
Qed.

End Rnd.

Lemma pack_valid (s : bool) (q' E' : Z) :
  0 <= q' <= 2 ^ 53 -> -1074 <= E' -> (-1074 < E' -> 2 ^ 52 <= q') ->
  valid_binary (pack s q' E') = true.
Proof.
  intros Hq HE Hn. unfold pack.
  destruct q' as [|p|p]; [reflexivity| |lia].
  destruct (Z.ltb_spec (Zpos p) (2 ^ 53)) as [Hlt|Hge].
  - destruct (Z.leb_spec E' 971) as [Hle|Hgt]; [|reflexivity].
    pose proof (log2_lt_pow2 (Zpos p) 53 ltac:(lia) Hlt).
    apply finite_valid; [lia|lia|].
    destruct (Z.eq_dec E' (-1074)) as [|Hne]; [now right|left].
    pose proof (log2_ge_pow2 (Zpos p) 52 ltac:(lia) (Hn ltac:(lia))). lia.
  - destruct (Z.leb_spec (E' + 1) 971) as [Hle|Hgt]; [|reflexivity].
    apply finite_valid; [lia| |left]; reflexivity.
Qed.

Lemma rnd_valid (s : bool) (k V : Z) :
  1074 <= k -> 0 < V -> valid_binary (rnd s k V) = true.
Proof.
  intros Hk HV. unfold rnd. apply pack_valid.
  - now apply rnd_mantissa_bounds.
  - rewrite fexp_eq. lia.
  - now apply rnd_mantissa_normal.
Qed.

Lemma rnd_id (s : bool) (m : positive) (e k : Z) :
  valid_binary (S754_finite s m e) = true ->
  0 <= e + k ->
  rnd s k (Zpos m * 2 ^ (e + k)) = S754_finite s m e.
Proof.
  intros Hv Hk. apply valid_finite in Hv.
  unfold rnd. rewrite Z.log2_mul_pow2, fexp_eq by lia.
  replace (Z.max (e + k + Z.log2 (Zpos m) + 1 - k - 53) (-1074)) with e
    by lia.
  rewrite rhe_exact by (apply pow2_pos; lia).
  unfold pack.
  assert (Hm : Zpos m < 2 ^ 53).
  { pose proof (log2_bounds (Zpos m) ltac:(lia)).
    apply Z.lt_le_trans with (2 ^ (Z.log2 (Zpos m) + 1)); [lia|].
    apply Z.pow_le_mono_r; lia. }
  rewrite (proj2 (Z.ltb_lt _ _) Hm), (proj2 (Z.leb_le e 971)) by lia.
  reflexivity.
Qed.

(** ** Order *)

Lemma pos_compare_cont_le (p1 p2 : positive) :
  (Zpos p1 <= Zpos p2) ->
  Pos.compare_cont Eq p1 p2 <> Gt.
Proof.
  intros H. change (Pos.compare_cont Eq p1 p2) with (Pos.compare p1 p2).
  rewrite Pos2Z.inj_compare. now apply Z.compare_le_iff.
Qed.

Lemma SFleb_finite_same_exp (m1 m2 : positive) (e : Z) :
  Zpos m1 <= Zpos m2 ->
  SFleb (S754_finite false m1 e) (S754_finite false m2 e) = true.
Proof.
  intros H. unfold SFleb. cbn [SFcompare]. rewrite Z.compare_refl.
  pose proof (pos_compare_cont_le m1 m2 H).
  destruct (Pos.compare_cont Eq m1 m2); congruence.
Qed.

Lemma SFleb_finite_lt_exp (m1 m2 : positive) (e1 e2 : Z) :
  e1 < e2 ->
  SFleb (S754_finite false m1 e1) (S754_finite false m2 e2) = true.
Proof.
  intros H. unfold SFleb. cbn [SFcompare].
  now rewrite (proj2 (Z.compare_lt_iff e1 e2) H).
Qed.

Lemma pack_le (q1 q2 E1 E2 : Z) :
  0 <= q1 <= 2 ^ 53 -> 0 <= q2 <= 2 ^ 53 ->
  (E1 = E2 /\ q1 <= q2) \/ (E1 < E2 /\ 2 ^ 52 <= q2) ->
  SFleb (pack false q1 E1) (pack false q2 E2) = true.
Proof.
  intros H1 H2 H. unfold pack.
  destruct q1 as [|p1|p1]; [| |lia]; (destruct q2 as [|p2|p2]; [| |lia]).
  - reflexivity.
  - destruct (Zpos p2 <? 2 ^ 53);
      [destruct (E2 <=? 971)|destruct (E2 + 1 <=? 971)]; reflexivity.
  - exfalso. lia.
  - destruct (Z.ltb_spec (Zpos p1) (2 ^ 53)) as [Hl1|Hg1];
      destruct (Z.ltb_spec (Zpos p2) (2 ^ 53)) as [Hl2|Hg2].
    + destruct (Z.leb_spec E1 971); destruct (Z.leb_spec E2 971);
        try reflexivity; try (exfalso; lia).
      destruct H as [[-> Hq]|[HE _]];
        [now apply SFleb_finite_same_exp|now apply SFleb_finite_lt_exp].
    + destruct (Z.leb_spec E1 971); destruct (Z.leb_spec (E2 + 1) 971);
        try reflexivity; try (exfalso; lia).
      apply SFleb_finite_lt_exp. lia.
    + destruct (Z.leb_spec (E1 + 1) 971); destruct (Z.leb_spec E2 971);
        try reflexivity; try (exfalso; lia).
      destruct (Z.eq_dec (E1 + 1) E2) as [<-|Hne].
      * apply SFleb_finite_same_exp.
        change (Zpos 4503599627370496) with (2 ^ 52). lia.
      * apply SFleb_finite_lt_exp. lia.
    + destruct (Z.leb_spec (E1 + 1) 971); destruct (Z.leb_spec (E2 + 1) 971);
        try reflexivity; try (exfalso; lia).
      destruct (Z.eq_dec E1 E2) as [<-|Hne].
      * apply SFleb_finite_same_exp. lia.
      * apply SFleb_finite_lt_exp. lia.
Qed.

Lemma rnd_mono (k V1 V2 : Z) :
  1074 <= k -> 0 < V1 -> V1 <= V2 ->
  SFleb (rnd false k V1) (rnd false k V2) = true.
Proof.
  intros Hk H1 H12. assert (H2 : 0 < V2) by lia.
  unfold rnd.
  pose proof (rnd_exponent k V1) as HE1. pose proof (rnd_exponent k V2) as HE2.
  pose proof (Z.log2_le_mono V1 V2 H12) as Hlog.
  pose proof (Z.log2_nonneg V1) as Hl1.
  apply pack_le; try (apply rnd_mantissa_bounds; lia).
  destruct (Z.eq_dec (fexp prec emax (Z.log2 V1 + 1 - k))
                     (fexp prec emax (Z.log2 V2 + 1 - k))) as [Heq|Hne].
  - left. split; [exact Heq|]. rewrite Heq.
    apply rhe_mono; [apply pow2_pos; lia|exact H12].
  - right. split; [lia|]. apply rnd_mantissa_normal; lia.
Qed.

Lemma scaled_lt_of_exp_lt (m1 m2 e1 e2 k : Z) :
  0 < m1 < 2 ^ 53 -> 2 ^ 52 <= m2 -> e1 < e2 -> 0 <= e1 + k ->
  m1 * 2 ^ (e1 + k) < m2 * 2 ^ (e2 + k).
Proof.
  intros H1 H2 He Hk.
  replace (e2 + k) with (1 + (e2 - e1 - 1) + (e1 + k)) by lia.
  rewrite (Z.pow_add_r 2 (1 + (e2 - e1 - 1)) (e1 + k)),
    (Z.pow_add_r 2 1 (e2 - e1 - 1)) by lia.
  pose proof (pow2_pos (e1 + k) ltac:(lia)) as HA.
  pose proof (pow2_pos (e2 - e1 - 1) ltac:(lia)) as HP.
  change (2 ^ 1) with 2. change (2 ^ 53) with (2 * 2 ^ 52) in H1.
  set (A := 2 ^ (e1 + k)) in *. set (P := 2 ^ (e2 - e1 - 1)) in *.
  apply Z.lt_le_trans with (2 * 2 ^ 52 * A).
  - apply Z.mul_lt_mono_pos_r; lia.
  - rewrite Z.mul_assoc. apply Z.mul_le_mono_nonneg_r; [lia|].
    assert (m2 <= m2 * P) by nia. nia.
Qed.

Lemma valid_mantissa_lt (s : bool) (m : positive) (e : Z) :
  valid_binary (S754_finite s m e) = true -> Zpos m < 2 ^ 53.
Proof.
  intros Hv. apply valid_finite in Hv.
  pose proof (log2_bounds (Zpos m) ltac:(lia)).
  apply Z.lt_le_trans with (2 ^ (Z.log2 (Zpos m) + 1)); [lia|].
  apply Z.pow_le_mono_r; lia.
Qed.

Lemma valid_mantissa_normal (s : bool) (m : positive) (e : Z) :
  valid_binary (S754_finite s m e) = true -> -1074 < e -> 2 ^ 52 <= Zpos m.
Proof.
  intros Hv He. apply valid_finite in Hv.
  pose proof (log2_bounds (Zpos m) ltac:(lia)).
  replace 52 with (Z.log2 (Zpos m)) by lia. lia.
Qed.

Lemma SFcompare_finite (m1 m2 : positive) (e1 e2 k : Z) :
  valid_binary (S754_finite false m1 e1) = true ->
  valid_binary (S754_finite false m2 e2) = true ->
  1074 <= k ->
  SFcompare (S754_finite false m1 e1) (S754_finite false m2 e2)
  = Some (Zpos m1 * 2 ^ (e1 + k) ?= Zpos m2 * 2 ^ (e2 + k)).
Proof.
  intros Hv1 Hv2 Hk.
  pose proof (valid_mantissa_lt _ _ _ Hv1) as Hm1.
  pose proof (valid_mantissa_lt _ _ _ Hv2) as Hm2.
  pose proof (valid_mantissa_normal _ _ _ Hv1) as Hn1.
  pose proof (valid_mantissa_normal _ _ _ Hv2) as Hn2.
  apply valid_finite in Hv1, Hv2.
  cbn [SFcompare]. f_equal.
  destruct (Z.compare_spec e1 e2) as [Heq|Hlt|Hgt].
  - subst e2. change (Pos.compare_cont Eq m1 m2) with (Pos.compare m1 m2).
    rewrite Pos2Z.inj_compare.
    pose proof (pow2_pos (e1 + k) ltac:(lia)).
    symmetry. destruct (Z.compare_spec (Zpos m1) (Zpos m2)) as [H0|H0|H0].
    + rewrite H0. apply Z.compare_refl.
    + apply Z.compare_lt_iff. nia.
    + apply Z.compare_gt_iff. nia.
  - symmetry. apply Z.compare_lt_iff.
    apply scaled_lt_of_exp_lt; lia.
  - symmetry. apply Z.compare_gt_iff.
    apply scaled_lt_of_exp_lt; lia.
Qed.

Lemma SFleb_finite (m1 m2 : positive) (e1 e2 k : Z) :
  valid_binary (S754_finite false m1 e1) = true ->
  valid_binary (S754_finite false m2 e2) = true ->
  1074 <= k ->
  SFleb (S754_finite false m1 e1) (S754_finite false m2 e2)
  = (Zpos m1 * 2 ^ (e1 + k) <=? Zpos m2 * 2 ^ (e2 + k)).
Proof.
  intros Hv1 Hv2 Hk. unfold SFleb.
  rewrite (SFcompare_finite m1 m2 e1 e2 k Hv1 Hv2 Hk). unfold Z.leb.
  destruct (Zpos m1 * 2 ^ (e1 + k) ?= Zpos m2 * 2 ^ (e2 + k)); reflexivity.
Qed.

(** ** Signs *)

Lemma sf_ge0_not_neg (x : spec_float) : sf_ge0 x = true -> sf_not_neg x = true.
Proof. destruct x as [s|s| |s m e]; try destruct s; simpl; congruence. Qed.

Lemma binary_round_aux_not_neg (m e : Z) (l : location) :
  sf_not_neg (binary_round_aux prec emax false m e l) = true.
Proof.
  unfold binary_round_aux.
  destruct (shr_fexp prec emax m e l) as [mrs' e'].
  destruct (shr_fexp prec emax _ e' loc_Exact) as [mrs'' e''].
  destruct (shr_m mrs''); [reflexivity| |reflexivity].
  destruct (e'' <=? emax - prec); reflexivity.
Qed.

Lemma binary_normalize_not_neg (z e : Z) :
  0 <= z -> sf_not_neg (binary_normalize prec emax z e false) = true.
Proof.
  intros Hz. destruct z as [|p|p]; [reflexivity| |lia].
  cbn [binary_normalize]. unfold binary_round.
  destruct (shl_align _ _ _) as [mz ez]. apply binary_round_aux_not_neg.
Qed.

Lemma pack_ge0 (q E : Z) : sf_ge0 (pack false q E) = true.
Proof.
  unfold pack. destruct q; try reflexivity.
  destruct (_ <? _); destruct (_ <=? _); reflexivity.
Qed.

Lemma rnd_ge0 (k V : Z) : sf_ge0 (rnd false k V) = true.
Proof. apply pack_ge0. Qed.

Lemma SFleb_zero_l (s : bool) (x : spec_float) :
  sf_ge0 x = true -> SFleb (S754_zero s) x = true.
Proof.
  destruct x as [s'|s'| |s' m e]; try destruct s'; cbv; congruence.
Qed.

Lemma SFleb_inf_r (x : spec_float) :
  sf_ge0 x = true -> SFleb x (S754_infinity false) = true.
Proof.
  destruct x as [s'|s'| |s' m e]; try destruct s'; cbv; congruence.
Qed.

Lemma SFleb_ge0 (x : spec_float) :
  SFleb (S754_zero false) x = sf_ge0 x.
Proof. destruct x as [s'|s'| |s' m e]; try destruct s'; reflexivity. Qed.

(** ** The operations on non-negative numbers *)

Lemma shl_align_fst (mx : positive) (ex ez : Z) :
  ez <= ex -> Zpos (fst (shl_align mx ex ez)) = Zpos mx * 2 ^ (ex - ez).
Proof.
  intros H. unfold shl_align.
  destruct (ez - ex) as [|d|d] eqn:Hd; [|lia|]; cbn [fst].
  - replace (ex - ez) with 0 by lia. lia.
  - rewrite pos_iter_xO. do 2 f_equal. lia.
Qed.

Lemma SFmul_not_neg (x y : spec_float) :
  sf_not_neg x = true -> sf_not_neg y = true ->
  sf_not_neg (SF64mul x y) = true.
Proof.
  unfold SF64mul.
  destruct x as [sx|sx| |sx mx ex]; destruct y as [sy|sy| |sy my ey];
    try destruct sx; try destruct sy; try discriminate;
    try reflexivity.
  intros _ _. apply binary_round_aux_not_neg.
Qed.

Lemma SFadd_not_neg (x y : spec_float) :
  sf_not_neg x = true -> sf_not_neg y = true ->
  sf_not_neg (SF64add x y) = true.
Proof.
  unfold SF64add.
  destruct x as [sx|sx| |sx mx ex]; destruct y as [sy|sy| |sy my ey];
    try destruct sx; try destruct sy; try discriminate;
    try reflexivity.
  intros _ _. cbn [SFadd]. apply binary_normalize_not_neg.
  cbn [cond_Zopp]. lia.
Qed.

Lemma sf_one_valid : valid_binary sf_one = true.
Proof. reflexivity. Qed.

Lemma SFadd_finite (mx my : positive) (ex ey k : Z) :
  valid_binary (S754_finite false mx ex) = true ->
  valid_binary (S754_finite false my ey) = true ->
  1074 <= k ->
  SF64add (S754_finite false mx ex) (S754_finite false my ey)
  = rnd false k (Zpos mx * 2 ^ (ex + k) + Zpos my * 2 ^ (ey + k)).
Proof.
  intros Hx Hy Hk. apply valid_finite in Hx, Hy.
  unfold SF64add. cbn [SFadd cond_Zopp].
  set (ez := Z.min ex ey).
  pose proof (shl_align_fst mx ex ez ltac:(lia)) as Ha.
  pose proof (shl_align_fst my ey ez ltac:(lia)) as Hb.
  set (a := fst (shl_align mx ex ez)) in *.
  set (b := fst (shl_align my ey ez)) in *.
  cbn [Z.add binary_normalize].
  rewrite (binary_round_rnd _ _ _ k) by lia. f_equal.
  rewrite Pos2Z.inj_add, Ha, Hb, Z.mul_add_distr_r,
    <- !Z.mul_assoc, <- !Z.pow_add_r by lia.
  replace (ex - ez + (ez + k)) with (ex + k) by lia.
  now replace (ey - ez + (ez + k)) with (ey + k) by lia.
Qed.

Lemma aligned_le (mx my : positive) (ex ey k : Z) :
  1074 <= k -> -1074 <= ex -> -1074 <= ey ->
  Zpos my * 2 ^ (ey + k) <= Zpos mx * 2 ^ (ex + k) ->
  Zpos (fst (shl_align my ey (Z.min ex ey)))
  <= Zpos (fst (shl_align mx ex (Z.min ex ey))).
Proof.
  intros Hk Hx Hy Hle. set (ez := Z.min ex ey).
  rewrite !shl_align_fst by (unfold ez; lia).
  pose proof (pow2_pos (ez + k) ltac:(unfold ez; lia)) as Hp.
  apply (Z.mul_le_mono_pos_r _ _ (2 ^ (ez + k)) Hp).
  rewrite <- !Z.mul_assoc, <- !Z.pow_add_r by (unfold ez; lia).
  replace (ex - ez + (ez + k)) with (ex + k) by lia.
  now replace (ey - ez + (ez + k)) with (ey + k) by lia.
Qed.

Lemma SFsub_not_neg (x y : spec_float) :
  valid_binary x = true -> valid_binary y = true ->
  sf_ge0 x = true -> sf_ge0 y = true ->
  SFleb y x = true ->
  sf_not_neg (SF64sub x y) = true.
Proof.
  intros Hvx Hvy. unfold SF64sub.
  destruct x as [sx|sx| |sx mx ex]; destruct y as [sy|sy| |sy my ey];
    try destruct sx; try destruct sy; try discriminate;
    try reflexivity.
  intros _ _ Hle. cbn [SFsub cond_Zopp].
  apply binary_normalize_not_neg.
  rewrite (SFleb_finite _ _ _ _ 1074 Hvy Hvx) in Hle by lia.
  apply Z.leb_le in Hle. apply valid_finite in Hvx, Hvy.
  pose proof (aligned_le mx my ex ey 1074 ltac:(lia) ltac:(lia) ltac:(lia)
                Hle).
  lia.
Qed.

Lemma SFcompare_neg (m1 m2 : positive) (e1 e2 : Z) :
  SFcompare (S754_finite true m1 e1) (S754_finite true m2 e2)
  = option_map CompOpp
      (SFcompare (S754_finite false m1 e1) (S754_finite false m2 e2)).
Proof. cbn [SFcompare option_map]. now destruct (e1 ?= e2). Qed.

(** [1 + g] is not negative when [-1 <= g]. *)
Lemma SFadd_one_not_neg (g : spec_float) :
  valid_binary g = true ->
  SFleb (SFopp sf_one) g = true ->
  sf_not_neg (SF64add sf_one g) = true.
Proof.
  intros Hv Hle.
  destruct g as [s|s| |s m e]; try destruct s; try discriminate;
    try reflexivity.
  - (* a negative number *)
    unfold SFleb, SFopp, sf_one in Hle. cbn [negb] in Hle.
    rewrite SFcompare_neg in Hle.
    assert (Hv' : valid_binary (S754_finite false m e) = true) by exact Hv.
    rewrite (SFcompare_finite _ _ _ _ 1074 sf_one_valid Hv') in Hle by lia.
    cbn [option_map] in Hle.
    assert (Hge : Zpos m * 2 ^ (e + 1074)
                  <= 4503599627370496 * 2 ^ (-52 + 1074)).
    { destruct (Z.compare_spec (4503599627370496 * 2 ^ (-52 + 1074))
                               (Zpos m * 2 ^ (e + 1074)));
        try lia; discriminate. }
    unfold SF64add, sf_one. cbn [SFadd cond_Zopp].
    apply binary_normalize_not_neg.
    apply valid_finite in Hv.
    pose proof (aligned_le 4503599627370496 m (-52) e 1074 ltac:(lia)
                  ltac:(lia) ltac:(lia) Hge).
    lia.
  - (* a positive number *)
    apply SFadd_not_neg; reflexivity.
Qed.

Lemma SFmul_finite_le (mx mc : positive) (ex ec : Z) :
  valid_binary (S754_finite false mx ex) = true ->
  valid_binary (S754_finite false mc ec) = true ->
  SFleb (S754_finite false mc ec) sf_one = true ->
  SFleb (SF64mul (S754_finite false mx ex) (S754_finite false mc ec))
        (S754_finite false mx ex) = true.
Proof.
  intros Hx Hc Hle. unfold sf_one in Hle.
  rewrite (SFleb_finite _ _ _ _ 1074 Hc sf_one_valid) in Hle by lia.
  apply Z.leb_le in Hle.
  rewrite (SFmul_finite _ _ _ _ _ _ 2148 Hx Hc) by lia. cbn [xorb].
  rewrite <- (rnd_id false mx ex 2148 Hx)
    by (apply valid_finite in Hx; lia).
  pose proof (valid_finite _ _ _ Hx) as Hfx.
  pose proof (valid_finite _ _ _ Hc) as Hfc.
  pose proof (pow2_pos (ex + 1074) ltac:(lia)) as Hpx.
  pose proof (pow2_pos (ec + 1074) ltac:(lia)) as Hpc.
  apply rnd_mono; [lia|nia|].
  replace (ex + ec + 2148) with ((ex + 1074) + (ec + 1074)) by lia.
  replace (ex + 2148) with ((ex + 1074) + 1074) by lia.
  rewrite (Z.pow_add_r 2 (ex + 1074) (ec + 1074)),
    (Z.pow_add_r 2 (ex + 1074) 1074) by lia.
  change (4503599627370496 * 2 ^ (-52 + 1074)) with (2 ^ 1074) in Hle.
  set (A := 2 ^ (ex + 1074)) in *. set (C := 2 ^ (ec + 1074)) in *.
  set (U := 2 ^ 1074) in *.
  assert (Zpos mx * A * (Zpos mc * C) <= Zpos mx * A * U)
    by (apply Z.mul_le_mono_nonneg_l; nia).
  lia.
Qed.

Lemma SFmul_finite_ge (mx mc : positive) (ex ec : Z) :
  valid_binary (S754_finite false mx ex) = true ->
  valid_binary (S754_finite false mc ec) = true ->
  SFleb sf_one (S754_finite false mc ec) = true ->
  SFleb (S754_finite false mx ex)
        (SF64mul (S754_finite false mx ex) (S754_finite false mc ec))
  = true.
Proof.
  intros Hx Hc Hle. unfold sf_one in Hle.
  rewrite (SFleb_finite _ _ _ _ 1074 sf_one_valid Hc) in Hle by lia.
  apply Z.leb_le in Hle.
  rewrite (SFmul_finite _ _ _ _ _ _ 2148 Hx Hc) by lia. cbn [xorb].
  rewrite <- (rnd_id false mx ex 2148 Hx)
    by (apply valid_finite in Hx; lia).
  pose proof (valid_finite _ _ _ Hx) as Hfx.
  pose proof (valid_finite _ _ _ Hc) as Hfc.
  pose proof (pow2_pos (ex + 1074) ltac:(lia)) as Hpx.
  pose proof (pow2_pos (ec + 1074) ltac:(lia)) as Hpc.
  replace (ex + ec + 2148) with ((ex + 1074) + (ec + 1074)) by lia.
  replace (ex + 2148) with ((ex + 1074) + 1074) by lia.
  rewrite (Z.pow_add_r 2 (ex + 1074) (ec + 1074)),
    (Z.pow_add_r 2 (ex + 1074) 1074) by lia.
  change (4503599627370496 * 2 ^ (-52 + 1074)) with (2 ^ 1074) in Hle.
  set (A := 2 ^ (ex + 1074)) in *. set (C := 2 ^ (ec + 1074)) in *.
  set (U := 2 ^ 1074) in *.
  assert (HU : 0 < U) by (apply pow2_pos; lia).
  apply rnd_mono; [lia|nia|].
  assert (Zpos mx * A * U <= Zpos mx * A * (Zpos mc * C))
    by (apply Z.mul_le_mono_nonneg_l; nia).
  lia.
Qed.

Lemma SFleb_ge0_r (x y : spec_float) :
  SFleb x y = true -> sf_ge0 x = true -> sf_ge0 y = true.
Proof.
  destruct x as [sx|sx| |sx mx ex]; destruct y as [sy|sy| |sy my ey];
    try destruct sx; try destruct sy; cbv; congruence.
Qed.

Lemma SFadd_one_bounds (m : positive) (e : Z) :
  valid_binary (S754_finite false m e) = true ->
  SFleb sf_one (SF64add sf_one (S754_finite false m e)) = true /\
  SFleb (SF64add sf_one (S754_finite false m e)) sf_max = true.
Proof.
  intros Hv. unfold sf_one.
  rewrite (SFadd_finite _ _ _ _ 1074 sf_one_valid Hv) by lia.
  pose proof (valid_mantissa_lt _ _ _ Hv) as Hm.
  apply valid_finite in Hv.
  pose proof (pow2_pos (e + 1074) ltac:(lia)) as Hp.
  set (U := 4503599627370496 * 2 ^ (-52 + 1074)).
  assert (HU : 0 < U) by reflexivity.
  split.
  - rewrite <- (rnd_id false 4503599627370496 (-52) 1074 sf_one_valid)
      by lia.
    apply rnd_mono; [lia|exact HU|]. fold U. nia.
  - assert (Hmax : rnd false 1074 (U + 9007199254740991 * 2 ^ 2045) = sf_max)
      by (vm_compute; reflexivity).
    rewrite <- Hmax. apply rnd_mono; [lia|nia|].
    apply Z.add_le_mono_l.
    assert (2 ^ (e + 1074) <= 2 ^ 2045) by (apply Z.pow_le_mono_r; lia).
    apply Z.mul_le_mono_nonneg; lia.
Qed.

Lemma SFmul_ge (x c : spec_float) :
  valid_binary x = true -> valid_binary c = true ->
  sf_ge0 x = true ->
  SFleb sf_one c = true -> SFleb c sf_max = true ->
  SFleb x (SF64mul x c) = true.
Proof.
  intros Hx Hc Hx0 H1 Hmax.
  destruct c as [sc|sc| |sc mc ec]; try destruct sc; try discriminate.
  destruct x as [sx|sx| |sx mx ex]; try destruct sx; try discriminate;
    try reflexivity.
  now apply SFmul_finite_ge.
Qed.

(** [a - a * c] is not negative when [0 <= c <= 1]. *)
Lemma SFsub_mul_not_neg (a c : spec_float) :
  valid_binary a = true -> valid_binary c = true ->
  sf_not_neg a = true -> sf_ge0 c = true -> SFleb c sf_one = true ->
  sf_not_neg (SF64sub a (SF64mul a c)) = true.
Proof.
  intros Ha Hc Hna Hc0 Hc1.
  destruct c as [sc|sc| |sc mc ec]; try destruct sc; try discriminate;
    (destruct a as [sa|sa| |sa ma ea]; try destruct sa; try discriminate;
     try reflexivity).
  pose proof (SFmul_finite_le ma mc ea ec Ha Hc Hc1) as Hle.
  apply SFsub_not_neg; try assumption; try reflexivity.
  - rewrite (SFmul_finite _ _ _ _ _ _ 2148 Ha Hc) by lia.
    apply rnd_valid; [lia|].
    apply valid_finite in Ha, Hc.
    pose proof (pow2_pos (ea + ec + 2148) ltac:(lia)). nia.
  - rewrite (SFmul_finite _ _ _ _ _ _ 2148 Ha Hc) by lia. apply rnd_ge0.
Qed.

(** [1 - t] is not negative when [0 <= t <= 1]. *)
Lemma SFsub_one_not_neg (t : spec_float) :
  valid_binary t = true ->
  sf_ge0 t = true -> SFleb t sf_one = true ->
  sf_not_neg (SF64sub sf_one t) = true.
Proof.
  intros Hv H0 H1. apply SFsub_not_neg; try assumption; reflexivity.
Qed.

(** ** Exact operations *)

Lemma SFmul_one (x : spec_float) :
  valid_binary x = true -> SF64mul x sf_one = x.
Proof.
  intros Hv. destruct x as [s|s| |s m e]; try (destruct s; reflexivity);
    try reflexivity.
  unfold sf_one.
  rewrite (SFmul_finite _ _ _ _ _ _ 2148 Hv sf_one_valid) by lia.
  rewrite xorb_false_r.
  rewrite <- (rnd_id s m e 2148 Hv)
    by (apply valid_finite in Hv; lia).
  f_equal. apply valid_finite in Hv.
  change (Zpos 4503599627370496) with (2 ^ 52).
  rewrite <- Z.mul_assoc, <- Z.pow_add_r by lia.
  do 2 f_equal. lia.
Qed.

Lemma SFsub_diag (x : spec_float) :
  match x with S754_zero _ | S754_finite _ _ _ => True | _ => False end ->
  SF64sub x x = S754_zero false.
Proof.
  destruct x as [s|s| |s m e]; try contradiction; intros _.
  - now destruct s.
  - unfold SF64sub. cbn [SFsub]. now rewrite Z.sub_diag.
Qed.

Lemma SFadd_zero_r (x : spec_float) :
  x <> S754_zero true -> SF64add x (S754_zero false) = x.
Proof.
  intros Hx. destruct x as [s|s| |s m e]; try reflexivity.
  destruct s; [congruence|reflexivity].
Qed.

(** ** Rounding to two decimal places *)

Lemma sticky_quotient_mono (N1 N2 : Z) :
  N1 <= N2 -> sticky_quotient N1 <= sticky_quotient N2.
Proof.
  intros H. unfold sticky_quotient.
  assert (Hn : N1 * 2 ^ 64 <= N2 * 2 ^ 64) by lia.
  set (a := N1 * 2 ^ 64) in *. set (b := N2 * 2 ^ 64) in *.
  pose proof (Z.div_le_mono a b 100 ltac:(lia) Hn) as Hq.
  pose proof (Z.div_mod a 100 ltac:(lia)) as Ha.
  pose proof (Z.div_mod b 100 ltac:(lia)) as Hb.
  pose proof (Z.mod_pos_bound a 100 ltac:(lia)).
  pose proof (Z.mod_pos_bound b 100 ltac:(lia)).
  destruct (Z.eqb_spec (a mod 100) 0); destruct (Z.eqb_spec (b mod 100) 0);
    lia.
Qed.

Lemma sticky_quotient_pos (N : Z) : 0 < N -> 2 ^ 58 <= sticky_quotient N.
Proof.
  intros H. unfold sticky_quotient.
  assert (Hq : 2 ^ 64 / 100 <= N * 2 ^ 64 / 100)
    by (apply Z.div_le_mono; lia).
  change (2 ^ 64 / 100) with 184467440737095516 in Hq.
  change (2 ^ 58) with 288230376151711744.
  destruct (_ =? 0); lia.
Qed.

Lemma sticky_quotient_zero (N : Z) : N <= 0 -> sticky_quotient N <= 0.
Proof.
  intros H. unfold sticky_quotient.
  destruct (Z.eq_dec N 0) as [->|Hn]; [reflexivity|].
  assert (Hq : N * 2 ^ 64 / 100 < 0).
  { apply Z.div_lt_upper_bound; lia. }
  destruct (_ =? 0); lia.
Qed.

Lemma nearest_hundredth_rnd (s : bool) (N : Z) :
  0 < N ->
  Py.nearest_hundredth s N = rnd s 1074 (sticky_quotient N * 2 ^ 1009).
Proof.
  intros HN. unfold Py.nearest_hundredth, Py.quotient_bits.
  fold (sticky_quotient N).
  pose proof (sticky_quotient_pos N HN) as Hp.
  destruct (sticky_quotient N) as [|p|p] eqn:Hs; try (exfalso; lia).
  rewrite (binary_round_aux_rnd s p _ 1074); [reflexivity|lia|].
  rewrite fexp_eq, digits2_log2.
  pose proof (log2_ge_pow2 (Zpos p) 58 ltac:(lia) Hp). lia.
Qed.

Lemma nearest_hundredth_zero (s : bool) (N : Z) :
  N <= 0 -> Py.nearest_hundredth s N = S754_zero s.
Proof.
  intros HN. unfold Py.nearest_hundredth, Py.quotient_bits.
  fold (sticky_quotient N).
  pose proof (sticky_quotient_zero N HN) as Hp.
  destruct (sticky_quotient N) as [|p|p]; try reflexivity. lia.
Qed.

Lemma nearest_hundredth_valid (s : bool) (N : Z) :
  valid_binary (Py.nearest_hundredth s N) = true.
Proof.
  destruct (Z.lt_ge_cases 0 N) as [Hp|Hn].
  - rewrite nearest_hundredth_rnd by exact Hp.
    apply rnd_valid; [lia|].
    pose proof (sticky_quotient_pos N Hp). lia.
  - now rewrite nearest_hundredth_zero by lia.
Qed.

Lemma nearest_hundredth_ge0 (N : Z) :
  sf_ge0 (Py.nearest_hundredth false N) = true.
Proof.
  destruct (Z.lt_ge_cases 0 N) as [Hp|Hn].
  - rewrite nearest_hundredth_rnd by exact Hp. apply rnd_ge0.
  - now rewrite nearest_hundredth_zero by lia.
Qed.

Lemma nearest_hundredth_mono (N1 N2 : Z) :
  N1 <= N2 ->
  SFleb (Py.nearest_hundredth false N1) (Py.nearest_hundredth false N2) = true.
Proof.
  intros H. destruct (Z.lt_ge_cases 0 N1) as [Hp|Hn].
  - rewrite !nearest_hundredth_rnd by lia.
    pose proof (sticky_quotient_pos N1 Hp).
    pose proof (sticky_quotient_mono N1 N2 H).
    apply rnd_mono; lia.
  - rewrite (nearest_hundredth_zero false N1) by lia.
    apply SFleb_zero_l, nearest_hundredth_ge0.
Qed.

Lemma hundredths_mono (m1 m2 : positive) (e1 e2 : Z) :
  Py.scaled m1 e1 <= Py.scaled m2 e2 ->
  Py.hundredths m1 e1 <= Py.hundredths m2 e2.
Proof.
  intros H. unfold Py.hundredths. apply rhe_mono; [reflexivity|lia].
Qed.

Lemma sf_round2_valid (x : spec_float) :
  valid_binary x = true -> valid_binary (sf_round2 x) = true.
Proof.
  destruct x as [s|s| |s m e]; try (intros; assumption).
  intros _. apply nearest_hundredth_valid.
Qed.

Lemma sf_round2_ge0 (x : spec_float) :
  sf_ge0 x = true -> sf_ge0 (sf_round2 x) = true.
Proof.
  destruct x as [s|s| |s m e]; try (intros; assumption).
  destruct s; [discriminate|]. intros _. apply nearest_hundredth_ge0.
Qed.

Lemma sf_round2_not_neg (x : spec_float) :
  sf_not_neg x = true -> sf_not_neg (sf_round2 x) = true.
Proof.
  destruct x as [s|s| |s m e]; try (intros; assumption).
  destruct s; [discriminate|]. intros _.
  apply sf_ge0_not_neg, nearest_hundredth_ge0.
Qed.

Lemma sf_round2_mono (x y : spec_float) :
  valid_binary x = true -> valid_binary y = true ->
  sf_ge0 x = true -> SFleb x y = true ->
  SFleb (sf_round2 x) (sf_round2 y) = true.
Proof.
  intros Hvx Hvy Hx Hle.
  pose proof (SFleb_ge0_r x y Hle Hx) as Hy.
  destruct x as [sx|sx| |sx mx ex]; try destruct sx; try discriminate.
  - apply SFleb_zero_l. now apply sf_round2_ge0.
  - apply SFleb_zero_l. now apply sf_round2_ge0.
  - destruct y as [sy|sy| |sy my ey]; try destruct sy; try discriminate.
    reflexivity.
  - destruct y as [sy|sy| |sy my ey]; try destruct sy; try discriminate.
    + apply SFleb_inf_r. cbn [sf_round2]. apply nearest_hundredth_ge0.
    + cbn [sf_round2]. apply nearest_hundredth_mono, hundredths_mono.
      rewrite (SFleb_finite _ _ _ _ 1074 Hvx Hvy) in Hle by lia.
      now apply Z.leb_le in Hle.
Qed.

(** ** Primitive floats through their unpacked form *)

Section PrimFloats.

#[local] Open Scope float_scope.

Lemma Prim2SF_one : Prim2SF 1 = sf_one.
Proof. reflexivity. Qed.

Lemma Prim2SF_zero : Prim2SF 0 = S754_zero false.
Proof. reflexivity. Qed.

Lemma leb_zero_spec (x : float) : (0 <=? x) = sf_ge0 (Prim2SF x).
Proof. rewrite leb_spec, Prim2SF_zero. apply SFleb_ge0. Qed.

Lemma SFeqb_refl (x : spec_float) :
  SFeqb x x = match x with S754_nan => false | _ => true end.
Proof.
  destruct x as [s|s| |s m e]; try reflexivity.
  - now destruct s.
  - unfold SFeqb. cbn [SFcompare]. rewrite Z.compare_refl.
    change (Pos.compare_cont Eq m m) with (Pos.compare m m).
    rewrite Pos.compare_refl. now destruct s.
Qed.

Lemma is_nan_spec (x : float) :
  is_nan x = match Prim2SF x with S754_nan => true | _ => false end.
Proof.
  unfold is_nan. rewrite eqb_spec, SFeqb_refl. now destruct (Prim2SF x).
Qed.

Lemma is_finite_spec (x : float) :
  is_finite x
  = match Prim2SF x with
    | S754_zero _ | S754_finite _ _ _ => true
    | _ => false
    end.
Proof.
  unfold is_finite, is_infinity. rewrite is_nan_spec, eqb_spec, abs_spec.
  change (Prim2SF infinity) with (S754_infinity false).
  destruct (Prim2SF x) as [s|s| |s m e]; reflexivity.
Qed.

Lemma not_negative_spec (x : float) :
  not_negative x <-> sf_not_neg (Prim2SF x) = true.
Proof.
  unfold not_negative. rewrite is_nan_spec, leb_zero_spec.
  destruct (Prim2SF x) as [s|s| |s m e]; try destruct s; simpl;
    intuition congruence.
Qed.

Lemma leb_zero_not_negative (x : float) :
  (0 <=? x) = true -> not_negative x.
Proof. intros H. now right. Qed.

Lemma Prim2SF_round2 (x : float) :
  Prim2SF (Py.round2 x) = sf_round2 (Prim2SF x).
Proof.
  unfold Py.round2.
  destruct (Prim2SF x) as [s|s| |s m e] eqn:Hx; try exact Hx.
  apply Prim2SF_SF2Prim, nearest_hundredth_valid.
Qed.

Lemma round2_not_negative (x : float) :
  not_negative x -> not_negative (Py.round2 x).
Proof.
  rewrite !not_negative_spec, Prim2SF_round2. apply sf_round2_not_neg.
Qed.

Lemma mul_not_negative (x y : float) :
  not_negative x -> not_negative y -> not_negative (x * y).
Proof. rewrite !not_negative_spec, mul_spec. apply SFmul_not_neg. Qed.

Lemma add_not_negative (x y : float) :
  not_negative x -> not_negative y -> not_negative (x + y).
Proof. rewrite !not_negative_spec, add_spec. apply SFadd_not_neg. Qed.

Lemma one_minus_not_negative (t : float) :
  (0 <=? t) = true -> (t <=? 1) = true -> not_negative (1 - t).
Proof.
  rewrite leb_zero_spec, leb_spec, not_negative_spec, sub_spec, !Prim2SF_one.
  apply SFsub_one_not_neg, Prim2SF_valid.
Qed.

Lemma one_plus_not_negative (g : float) :
  (-1 <=? g) = true -> not_negative (1 + g).
Proof.
  rewrite leb_spec, not_negative_spec, add_spec, Prim2SF_one.
  apply SFadd_one_not_neg, Prim2SF_valid.
Qed.

Lemma sub_mul_not_negative (a c : float) :
  not_negative a -> (0 <=? c) = true -> (c <=? 1) = true ->
  not_negative (a - a * c).
Proof.
  rewrite leb_zero_spec, leb_spec, !not_negative_spec, sub_spec, mul_spec,
    !Prim2SF_one.
  apply SFsub_mul_not_neg; apply Prim2SF_valid.
Qed.

Lemma mul_one_r (x : float) : x * 1 = x.
Proof.
  apply Prim2SF_inj. rewrite mul_spec, Prim2SF_one.
  apply SFmul_one, Prim2SF_valid.
Qed.

Lemma sub_diag_finite (x : float) : is_finite x = true -> x - x = 0.
Proof.
  rewrite is_finite_spec. intros H.
  apply Prim2SF_inj. rewrite sub_spec, Prim2SF_zero.
  apply SFsub_diag. destruct (Prim2SF x); try discriminate; exact I.
Qed.

Lemma add_zero_r (x : float) : x <> (-0) -> x + 0 = x.
Proof.
  intros H. apply Prim2SF_inj. rewrite add_spec, Prim2SF_zero.
  apply SFadd_zero_r. intros Hx. apply H.
  rewrite <- (SF2Prim_Prim2SF x), Hx. reflexivity.
Qed.

(** [1 + r] for a finite [r > 0]: at least 1, and finite. *)
Lemma one_plus_positive (r : float) :
  (0 <? r) = true -> is_finite r = true ->
  SFleb sf_one (Prim2SF (1 + r)) = true /\
  SFleb (Prim2SF (1 + r)) sf_max = true.
Proof.
  rewrite ltb_spec, is_finite_spec, Prim2SF_zero, add_spec, Prim2SF_one.
  pose proof (Prim2SF_valid r) as Hv.
  destruct (Prim2SF r) as [s|s| |s m e]; try destruct s; try discriminate.
  intros _ _. now apply SFadd_one_bounds.
Qed.

Lemma mul_growth_ge (x r : float) :
  (0 <=? x) = true -> (0 <? r) = true -> is_finite r = true ->
  (x <=? x * (1 + r)) = true.
Proof.
  intros Hx Hr Hf. rewrite leb_zero_spec in Hx.
  destruct (one_plus_positive r Hr Hf) as [H1 Hmax].
  rewrite leb_spec, mul_spec.
  apply SFmul_ge; try apply Prim2SF_valid; assumption.
Qed.

Lemma leb_ge0_r (x y : float) :
  (0 <=? x) = true -> (x <=? y) = true -> (0 <=? y) = true.
Proof.
  rewrite !leb_zero_spec, leb_spec. intros Hx Hle.
  now apply (SFleb_ge0_r (Prim2SF x)).
Qed.

Lemma round2_mono (x y : float) :
  (0 <=? x) = true -> (x <=? y) = true ->
  (Py.round2 x <=? Py.round2 y) = true.
Proof.
  rewrite leb_zero_spec, !leb_spec, !Prim2SF_round2.
  apply sf_round2_mono; apply Prim2SF_valid.
Qed.

End PrimFloats.

(** * The projection *)

(** ** Lists and the loop *)

Lemma range_length (lo hi : Z) : length (Py.range lo hi) = Z.to_nat (hi - lo).
Proof. unfold Py.range. now rewrite length_map, length_seq. Qed.

Lemma range_nth_error (lo hi : Z) (k : nat) :
  (k < Z.to_nat (hi - lo))%nat ->
  nth_error (Py.range lo hi) k = Some (lo + Z.of_nat k).
Proof.
  intros Hk. unfold Py.range.
  rewrite nth_error_map, nth_error_seq.
  destruct (Nat.ltb_spec k (Z.to_nat (hi - lo))) as [_|Hge]; [reflexivity|lia].
Qed.

Lemma range_empty (lo hi : Z) : hi <= lo -> Py.range lo hi = [].
Proof.
  intros H. unfold Py.range.
  replace (Z.to_nat (hi - lo)) with 0%nat by lia. reflexivity.
Qed.

Lemma firstn_succ_nth_error {A} (l : list A) (k : nat) (x : A) :
  nth_error l k = Some x -> firstn (S k) l = firstn k l ++ [x].
Proof.
  revert k. induction l as [|a l IH]; intros k Hk.
  - destruct k; discriminate.
  - destruct k as [|k]; simpl in *.
    + now inversion Hk.
    + f_equal. now apply IH.
Qed.

Section LoopFacts.

Variables initial_net_worth initial_salary : float.
Variables salary_growth_rate asset_growth_rate : float.
Variables dividend_yield tax_rate expense_ratio : float.

Let body :=
  loop_body salary_growth_rate asset_growth_rate dividend_yield tax_rate
            expense_ratio.
Let emit := current_state_of dividend_yield tax_rate expense_ratio.
Let rows :=
  rows_from salary_growth_rate asset_growth_rate dividend_yield tax_rate
            expense_ratio.

Lemma loop_body_data (v : loop_vars) (year : Z) :
  data (body v year) = data v ++ [emit v year].
Proof. reflexivity. Qed.

Lemma fold_loop_data (years : list Z) (v : loop_vars) :
  data (fold_left body years v) = data v ++ rows years v.
Proof.
  revert v. induction years as [|y ys IH]; intros v; simpl.
  - now rewrite app_nil_r.
  - rewrite IH. fold body. rewrite loop_body_data, <- app_assoc. reflexivity.
Qed.

Lemma rows_length (years : list Z) (v : loop_vars) :
  length (rows years v) = length years.
Proof.
  revert v. induction years as [|y ys IH]; intros v; simpl; [reflexivity|].
  f_equal. apply IH.
Qed.

Lemma rows_nth_error (years : list Z) (v : loop_vars) (k : nat) (year : Z) :
  nth_error years k = Some year ->
  nth_error (rows years v) k
  = Some (emit (fold_left body (firstn k years) v) year).
Proof.
  revert v k. induction years as [|y ys IH]; intros v k Hk.
  - destruct k; discriminate.
  - destruct k as [|k]; simpl in *.
    + now inversion Hk.
    + apply IH. exact Hk.
Qed.

Lemma projection_rows (start_year end_year : Z) :
  calculate_net_worth_projection initial_net_worth initial_salary
    salary_growth_rate asset_growth_rate dividend_yield tax_rate
    expense_ratio start_year end_year
  = rows (Py.range start_year (end_year + 1))
         {| current_net_worth := initial_net_worth;
            current_salary := initial_salary;
            data := [] |}.
Proof.
  unfold calculate_net_worth_projection. fold body.
  now rewrite fold_loop_data.
Qed.

Lemma projection_length (start_year end_year : Z) :
  length (calculate_net_worth_projection initial_net_worth initial_salary
            salary_growth_rate asset_growth_rate dividend_yield tax_rate
            expense_ratio start_year end_year)
  = Z.to_nat (end_year - start_year + 1).
Proof.
  rewrite projection_rows, rows_length, range_length. f_equal. lia.
Qed.

Lemma projection_nth_error (start_year end_year : Z) (k : nat) :
  (k < Z.to_nat (end_year - start_year + 1))%nat ->
  nth_error (calculate_net_worth_projection initial_net_worth initial_salary
               salary_growth_rate asset_growth_rate dividend_yield tax_rate
               expense_ratio start_year end_year) k
  = Some (emit (loop_entry initial_net_worth initial_salary
                  salary_growth_rate asset_growth_rate dividend_yield
                  tax_rate expense_ratio start_year end_year k)
               (start_year + Z.of_nat k)).
Proof.
  intros Hk. rewrite projection_rows. apply rows_nth_error.
  apply range_nth_error. lia.
Qed.

Lemma loop_entry_succ (start_year end_year : Z) (k : nat) :
  (k < Z.to_nat (end_year - start_year + 1))%nat ->
  loop_entry initial_net_worth initial_salary salary_growth_rate
    asset_growth_rate dividend_yield tax_rate expense_ratio start_year
    end_year (S k)
  = body (loop_entry initial_net_worth initial_salary salary_growth_rate
            asset_growth_rate dividend_yield tax_rate expense_ratio
            start_year end_year k)
         (start_year + Z.of_nat k).
Proof.
  intros Hk. unfold loop_entry. fold body.
  rewrite (firstn_succ_nth_error _ _ (start_year + Z.of_nat k))
    by (apply range_nth_error; lia).
  now rewrite fold_left_app.
Qed.

End LoopFacts.

(** ** The projection: rows, years and running state *)

Section ProjectionClaims.

#[local] Open Scope float_scope.

Variables initial_net_worth initial_salary : float.
Variables salary_growth_rate asset_growth_rate : float.
Variables dividend_yield tax_rate expense_ratio : float.
Variables start_year end_year : Z.

Let projection :=
  calculate_net_worth_projection initial_net_worth initial_salary
    salary_growth_rate asset_growth_rate dividend_yield tax_rate
    expense_ratio start_year end_year.
Let entry :=
  loop_entry initial_net_worth initial_salary salary_growth_rate
    asset_growth_rate dividend_yield tax_rate expense_ratio start_year
    end_year.

(** C1 (amended): for every index [k] of a simulated year the projection has
    a [k]-th row, and that row is built from the loop variables as they are
    on entry to iteration [k], before the update: its year is
    [start_year + k], and its seven amounts are the net worth, the salary,
    [net_worth * dividend_yield], [salary + dividend_income],
    [total_income * (1 - tax_rate)], [after_tax_income * expense_ratio] and
    [after_tax_income - expenses], each passed through [round(_, 2)].  On
    entry to the first iteration the variables are [initial_net_worth] and
    [initial_salary], so the first row holds these two rounded to two
    decimal places. *)
Theorem snapshot_from_pre_update_state (k : nat) :
  (Z.of_nat k <= end_year - start_year)%Z ->
  exists snap,
    nth_error projection k = Some snap /\
    let net_worth := current_net_worth (entry k) in
    let salary := current_salary (entry k) in
    let dividend_income := net_worth * dividend_yield in
    let total_income := salary + dividend_income in
    let after_tax_income := total_income * (1 - tax_rate) in
    let expenses := after_tax_income * expense_ratio in
    let savings := after_tax_income - expenses in
    Year snap = (start_year + Z.of_nat k)%Z /\
    Net_Worth snap = Py.round2 net_worth /\
    Salary snap = Py.round2 salary /\
    Dividend_Income snap = Py.round2 dividend_income /\
    Total_Income snap = Py.round2 total_income /\
    After_tax_Income snap = Py.round2 after_tax_income /\
    Expenses snap = Py.round2 expenses /\
    Savings snap = Py.round2 savings /\
    (k = 0%nat ->
     net_worth = initial_net_worth /\ salary = initial_salary /\
     Net_Worth snap = Py.round2 initial_net_worth /\
     Salary snap = Py.round2 initial_salary).
Proof.
  intros Hk. eexists. split.
  - unfold projection. apply projection_nth_error. lia.
  - cbv zeta. unfold current_state_of. simpl.
    repeat (split; [reflexivity|]).
    intros ->. unfold entry, loop_entry. simpl. repeat split.
Qed.

(** C2: between two consecutive simulated years [k] and [k + 1] the loop
    variables advance by
    [net_worth' = (net_worth + savings) * (1 + asset_growth_rate)] and
    [salary' = salary * (1 + salary_growth_rate)], with [savings] the
    unrounded savings of year [k]; the pair of variables on entry to any
    iteration is the [k]-fold iterate of [advance], in which no rounding
    occurs, so the rounding done for the rows never reaches the running
    state. *)
Theorem running_state_advances (k : nat) :
  (Z.of_nat k + 1 <= end_year - start_year)%Z ->
  let net_worth := current_net_worth (entry k) in
  let salary := current_salary (entry k) in
  let after_tax_income :=
    (salary + net_worth * dividend_yield) * (1 - tax_rate) in
  let savings := after_tax_income - after_tax_income * expense_ratio in
  current_net_worth (entry (S k))
  = (net_worth + savings) * (1 + asset_growth_rate) /\
  current_salary (entry (S k)) = salary * (1 + salary_growth_rate) /\
  (net_worth, salary)
  = running_state initial_net_worth initial_salary salary_growth_rate
      asset_growth_rate dividend_yield tax_rate expense_ratio k /\
  (current_net_worth (entry (S k)), current_salary (entry (S k)))
  = running_state initial_net_worth initial_salary salary_growth_rate
      asset_growth_rate dividend_yield tax_rate expense_ratio (S k).
Proof.
  intros Hk. cbv zeta.
  assert (Hstep : forall j, (Z.of_nat j <= end_year - start_year)%Z ->
            current_net_worth (entry (S j))
            = (current_net_worth (entry j)
               + full_savings dividend_yield tax_rate expense_ratio
                   (current_net_worth (entry j)) (current_salary (entry j)))
              * (1 + asset_growth_rate)
            /\ current_salary (entry (S j))
               = current_salary (entry j) * (1 + salary_growth_rate)).
  { intros j Hj. unfold entry. rewrite loop_entry_succ by lia.
    split; reflexivity. }
  assert (Hrun : forall j, (Z.of_nat j <= end_year - start_year + 1)%Z ->
            (current_net_worth (entry j), current_salary (entry j))
            = running_state initial_net_worth initial_salary
                salary_growth_rate asset_growth_rate dividend_yield tax_rate
                expense_ratio j).
  { induction j as [|j IH]; intros Hj.
    - reflexivity.
    - destruct (Hstep j ltac:(lia)) as [Hn Hs].
      unfold running_state in *. simpl Nat.iter.
      rewrite <- IH by lia. unfold advance. simpl fst. simpl snd.
      now rewrite Hn, Hs. }
  destruct (Hstep k ltac:(lia)) as [Hn Hs].
  repeat split.
  - exact Hn.
  - exact Hs.
  - apply Hrun. lia.
  - apply Hrun. lia.
Qed.

(** C3: with [end_year >= start_year] the projection has exactly
    [end_year - start_year + 1] rows, and the row of index [k] carries the
    year [start_year + k]: the years start at [start_year] and go up by one
    from each row to the next. *)
Theorem snapshot_count_and_years :
  (start_year <= end_year)%Z ->
  Z.of_nat (length projection) = (end_year - start_year + 1)%Z /\
  map Year projection = Py.range start_year (end_year + 1) /\
  forall k snap,
    nth_error projection k = Some snap ->
    Year snap = (start_year + Z.of_nat k)%Z.
Proof.
  intros Hle.
  assert (Hlen : length projection = Z.to_nat (end_year - start_year + 1))
    by apply projection_length.
  assert (Hnth : forall k snap, nth_error projection k = Some snap ->
                 Year snap = (start_year + Z.of_nat k)%Z).
  { intros k snap Hk.
    assert (Hlt : (k < length projection)%nat)
      by (apply nth_error_Some; congruence).
    unfold projection in Hk. rewrite projection_nth_error in Hk by lia.
    inversion Hk. reflexivity. }
  split; [lia|]. split; [|exact Hnth].
  apply nth_error_ext. intros k.
  rewrite nth_error_map.
  destruct (Nat.lt_ge_cases k (length projection)) as [Hlt|Hge].
  - rewrite range_nth_error by lia.
    destruct (nth_error projection k) as [snap|] eqn:Hk.
    + simpl. f_equal. now apply Hnth.
    + apply nth_error_None in Hk. lia.
  - rewrite (proj2 (nth_error_None _ _) Hge). simpl. symmetry.
    apply nth_error_None. rewrite range_length. lia.
Qed.

(** C9: with [end_year < start_year] the call raises nothing and returns
    the empty projection. *)
Theorem reversed_years_give_empty_projection :
  (end_year < start_year)%Z ->
  call_projection initial_net_worth initial_salary salary_growth_rate
    asset_growth_rate dividend_yield tax_rate expense_ratio start_year
    end_year
  = Py.Returned [] /\
  length projection = 0%nat.
Proof.
  intros Hlt. unfold call_projection, projection.
  unfold calculate_net_worth_projection.
  rewrite range_empty by lia. split; reflexivity.
Qed.

(** C5 (amended): [calculate_net_worth_projection] checks none of its
    arguments and raises nothing: whatever the arguments (reversed years,
    [tax_rate >= 1], negative amounts or ratios), the call returns a
    projection, of [max 0 (end_year - start_year + 1)] rows, each built by
    the same formulas from the loop variables of its year. *)
Theorem projection_never_raises :
  exists df,
    call_projection initial_net_worth initial_salary salary_growth_rate
      asset_growth_rate dividend_yield tax_rate expense_ratio start_year
      end_year
    = Py.Returned df /\
    Z.of_nat (length df) = Z.max 0 (end_year - start_year + 1) /\
    forall k snap,
      nth_error df k = Some snap ->
      snap
      = current_state_of dividend_yield tax_rate expense_ratio (entry k)
          (start_year + Z.of_nat k).
Proof.
  eexists. split; [reflexivity|]. split.
  - rewrite projection_length. lia.
  - intros k snap Hk.
    assert (Hlt : (k < length projection)%nat)
      by (apply nth_error_Some; unfold projection; congruence).
    unfold projection in Hlt. rewrite projection_length in Hlt.
    rewrite projection_nth_error in Hk by exact Hlt.
    now inversion Hk.
Qed.

End ProjectionClaims.

(** ** The sensitivity sweep *)

Lemma iloc_last_nonempty (df : DataFrame) :
  df <> [] ->
  exists r,
    iloc_last df = Py.Returned r /\
    nth_error df (length df - 1) = Some r /\
    final_net_worth df = Net_Worth r.
Proof.
  intros Hne. unfold iloc_last, final_net_worth.
  destruct (rev df) as [|r l] eqn:Hrev.
  - exfalso. apply Hne. apply (f_equal (@rev _)) in Hrev.
    now rewrite rev_involutive in Hrev.
  - exists r. repeat split.
    apply (f_equal (@rev _)) in Hrev. rewrite rev_involutive in Hrev.
    subst df. simpl. rewrite length_app. simpl.
    rewrite nth_error_app2 by lia.
    replace (length (rev l) + 1 - 1 - length (rev l))%nat with 0%nat by lia.
    reflexivity.
Qed.

Section SweepClaims.

#[local] Open Scope float_scope.

Variables initial_net_worth initial_salary : float.
Variables salary_growth dividend_yield expense_ratio : float.
Variables start_year end_year : Z.

(** The full projection run for one cell: the tax rate and the asset growth
    rate come from the grids, the other arguments are those of the base
    run. *)
Let cell_projection (growth tax : Z) : DataFrame :=
  calculate_net_worth_projection initial_net_worth initial_salary
    (salary_growth / 100) (Py.true_div growth 100) (dividend_yield / 100)
    (Py.true_div tax 100) (expense_ratio / 100) start_year end_year.
Let cell := sweep_cell initial_net_worth initial_salary salary_growth
              dividend_yield expense_ratio start_year end_year.
Let row := sweep_row initial_net_worth initial_salary salary_growth
             dividend_yield expense_ratio start_year end_year.
Let rows := sweep_rows initial_net_worth initial_salary salary_growth
              dividend_yield expense_ratio start_year end_year.

Hypothesis years_ordered : (start_year <= end_year)%Z.

Lemma cell_projection_nonempty (growth tax : Z) :
  cell_projection growth tax <> [].
Proof.
  intros H. apply (f_equal (@length _)) in H.
  unfold cell_projection in H. rewrite projection_length in H.
  simpl in H. lia.
Qed.

Lemma sweep_cell_returns (growth tax : Z) :
  cell growth tax
  = Py.Returned (final_net_worth (cell_projection growth tax)).
Proof.
  unfold cell, sweep_cell, call_projection. simpl.
  fold (cell_projection growth tax).
  destruct (iloc_last_nonempty _ (cell_projection_nonempty growth tax))
    as (r & Hr & _ & Hf).
  now rewrite Hr, Hf.
Qed.

Lemma sweep_row_returns (growth : Z) (taxes : list Z) (acc : list float) :
  row growth taxes acc
  = Py.Returned
      (acc ++ map (fun tax => final_net_worth (cell_projection growth tax))
                  taxes).
Proof.
  revert acc. induction taxes as [|tax taxes IH]; intros acc; simpl.
  - now rewrite app_nil_r.
  - fold cell. rewrite sweep_cell_returns. simpl. fold row.
    rewrite IH, <- app_assoc. reflexivity.
Qed.

Lemma sweep_rows_returns (growths taxes : list Z) (acc : list (list float)) :
  rows growths taxes acc
  = Py.Returned
      (acc ++ map (fun growth =>
                     map (fun tax =>
                            final_net_worth (cell_projection growth tax))
                         taxes)
                  growths).
Proof.
  revert acc. induction growths as [|growth growths IH]; intros acc; simpl.
  - now rewrite app_nil_r.
  - fold row. rewrite sweep_row_returns. simpl. fold rows.
    rewrite IH, <- app_assoc. reflexivity.
Qed.

End SweepClaims.

(** C4: for a base run with [end_year >= start_year] and any two grids, the
    sweep returns a table with one row per growth value and one column per
    tax value, in the order of the grids, and the cell of row [i] and column
    [j] is the net worth of the last row of the full projection run with the
    [j]-th tax rate and the [i]-th asset growth rate (the grids hold
    percentages, divided by 100 for the call) and the other arguments
    unchanged. *)
Theorem sweep_shape_and_cells
    (initial_net_worth initial_salary : float)
    (salary_growth dividend_yield expense_ratio : float)
    (start_year end_year : Z) (growths taxes : list Z) :
  (start_year <= end_year)%Z ->
  exists table,
    sweep_rows initial_net_worth initial_salary salary_growth dividend_yield
      expense_ratio start_year end_year growths taxes []
    = Py.Returned table /\
    length table = length growths /\
    (forall r, In r table -> length r = length taxes) /\
    forall i j growth tax,
      nth_error growths i = Some growth ->
      nth_error taxes j = Some tax ->
      let df :=
        calculate_net_worth_projection initial_net_worth initial_salary
          (salary_growth / 100) (Py.true_div growth 100)
          (dividend_yield / 100) (Py.true_div tax 100)
          (expense_ratio / 100) start_year end_year in
      exists r last,
        nth_error table i = Some r /\
        nth_error r j = Some (Net_Worth last) /\
        iloc_last df = Py.Returned last /\
        nth_error df (Z.to_nat (end_year - start_year)) = Some last.
Proof.
  intros Hle. eexists. split.
  - apply sweep_rows_returns. exact Hle.
  - rewrite app_nil_l. split; [apply length_map|]. split.
    + intros r Hr. apply in_map_iff in Hr. destruct Hr as (g & <- & _).
      apply length_map.
    + intros i j growth tax Hi Hj df.
      destruct (iloc_last_nonempty df) as (last & Hl & Hn & Hf).
      { apply cell_projection_nonempty. exact Hle. }
      eexists. exists last. split; [|split; [|split]].
      * rewrite nth_error_map, Hi. reflexivity.
      * rewrite nth_error_map, Hj. simpl. f_equal. exact Hf.
      * exact Hl.
      * rewrite <- Hn. f_equal. unfold df. rewrite projection_length. lia.
Qed.

(** The table of [main]: nine rows (growth 4% to 20%) of seven columns (tax
    20% to 50%). *)
Lemma sensitivity_data_grids
    (initial_net_worth initial_salary : float)
    (salary_growth dividend_yield expense_ratio : float)
    (start_year end_year : Z) :
  sensitivity_data initial_net_worth initial_salary salary_growth
    dividend_yield expense_ratio start_year end_year
  = sweep_rows initial_net_worth initial_salary salary_growth dividend_yield
      expense_ratio start_year end_year
      [4; 6; 8; 10; 12; 14; 16; 18; 20]%Z [20; 25; 30; 35; 40; 45; 50]%Z [].
Proof. reflexivity. Qed.

(** ** Signs, full expenses and growing salaries *)

Section AmountClaims.

#[local] Open Scope float_scope.

Variables initial_net_worth initial_salary : float.
Variables salary_growth_rate asset_growth_rate : float.
Variables dividend_yield tax_rate expense_ratio : float.
Variables start_year end_year : Z.

Let body :=
  loop_body salary_growth_rate asset_growth_rate dividend_yield tax_rate
            expense_ratio.
Let projection :=
  calculate_net_worth_projection initial_net_worth initial_salary
    salary_growth_rate asset_growth_rate dividend_yield tax_rate
    expense_ratio start_year end_year.
Let entry :=
  loop_entry initial_net_worth initial_salary salary_growth_rate
    asset_growth_rate dividend_yield tax_rate expense_ratio start_year
    end_year.

Lemma loop_body_not_negative (v : loop_vars) (year : Z) :
  (0 <=? dividend_yield) = true ->
  (0 <=? tax_rate) = true -> (tax_rate <=? 1) = true ->
  (0 <=? expense_ratio) = true -> (expense_ratio <=? 1) = true ->
  (-1 <=? asset_growth_rate) = true -> (-1 <=? salary_growth_rate) = true ->
  not_negative (current_net_worth v) /\ not_negative (current_salary v) ->
  not_negative (current_net_worth (body v year)) /\
  not_negative (current_salary (body v year)).
Proof.
  intros Hd Ht0 Ht1 He0 He1 Hg Hs [Hn Hsal].
  unfold body, loop_body. cbn [current_net_worth current_salary].
  assert (Hati : not_negative
            ((current_salary v + current_net_worth v * dividend_yield)
             * (1 - tax_rate))).
  { apply mul_not_negative; [|now apply one_minus_not_negative].
    apply add_not_negative; [exact Hsal|].
    apply mul_not_negative; [exact Hn|now apply leb_zero_not_negative]. }
  split.
  - apply mul_not_negative; [|now apply one_plus_not_negative].
    apply add_not_negative; [exact Hn|].
    now apply sub_mul_not_negative.
  - apply mul_not_negative; [exact Hsal|now apply one_plus_not_negative].
Qed.

Lemma fold_not_negative (years : list Z) (v : loop_vars) :
  (0 <=? dividend_yield) = true ->
  (0 <=? tax_rate) = true -> (tax_rate <=? 1) = true ->
  (0 <=? expense_ratio) = true -> (expense_ratio <=? 1) = true ->
  (-1 <=? asset_growth_rate) = true -> (-1 <=? salary_growth_rate) = true ->
  not_negative (current_net_worth v) /\ not_negative (current_salary v) ->
  not_negative (current_net_worth (fold_left body years v)) /\
  not_negative (current_salary (fold_left body years v)).
Proof.
  intros Hd Ht0 Ht1 He0 He1 Hg Hs. revert v.
  induction years as [|y ys IH]; intros v Hv; [exact Hv|].
  simpl. apply IH. now apply loop_body_not_negative.
Qed.

(** C10 (amended): with [initial_net_worth >= 0], [initial_salary >= 0],
    [dividend_yield >= 0], [tax_rate] and [expense_ratio] in [0, 1] and the
    two growth rates at least [-1], the running net worth and salary are
    never negative, on entry to any iteration and after the last one, and
    no amount of any row is negative: each is at least zero or, once a
    value has overflowed, NaN. *)
Theorem amounts_never_negative (k : nat) :
  (0 <=? initial_net_worth) = true -> (0 <=? initial_salary) = true ->
  (0 <=? dividend_yield) = true ->
  (0 <=? tax_rate) = true -> (tax_rate <=? 1) = true ->
  (0 <=? expense_ratio) = true -> (expense_ratio <=? 1) = true ->
  (-1 <=? asset_growth_rate) = true -> (-1 <=? salary_growth_rate) = true ->
  not_negative (current_net_worth (entry k)) /\
  not_negative (current_salary (entry k)) /\
  forall snap,
    nth_error projection k = Some snap ->
    not_negative (Net_Worth snap) /\
    not_negative (Salary snap) /\
    not_negative (Dividend_Income snap) /\
    not_negative (Total_Income snap) /\
    not_negative (After_tax_Income snap) /\
    not_negative (Expenses snap) /\
    not_negative (Savings snap).
Proof.
  intros Hn0 Hs0 Hd Ht0 Ht1 He0 He1 Hg Hs.
  assert (Hv : not_negative (current_net_worth (entry k)) /\
               not_negative (current_salary (entry k))).
  { unfold entry, loop_entry. fold body.
    apply fold_not_negative; try assumption.
    split; now apply leb_zero_not_negative. }
  destruct Hv as [Hn Hsal]. split; [exact Hn|]. split; [exact Hsal|].
  intros snap Hk.
  assert (Hlt : (k < length projection)%nat)
    by (apply nth_error_Some; congruence).
  unfold projection in Hk, Hlt. rewrite projection_length in Hlt.
  rewrite projection_nth_error in Hk by exact Hlt.
  inversion Hk as [Hsnap]. unfold current_state_of.
  cbn [Net_Worth Salary Dividend_Income Total_Income After_tax_Income
       Expenses Savings].
  fold entry.
  assert (Hdiv : not_negative (current_net_worth (entry k) * dividend_yield))
    by (apply mul_not_negative;
        [exact Hn|now apply leb_zero_not_negative]).
  assert (Htot : not_negative
            (current_salary (entry k)
             + current_net_worth (entry k) * dividend_yield))
    by now apply add_not_negative.
  assert (Hati : not_negative
            ((current_salary (entry k)
              + current_net_worth (entry k) * dividend_yield)
             * (1 - tax_rate)))
    by (apply mul_not_negative; [exact Htot|
        now apply one_minus_not_negative]).
  repeat split; apply round2_not_negative; try assumption.
  - apply mul_not_negative; [exact Hati|now apply leb_zero_not_negative].
  - now apply sub_mul_not_negative.
Qed.

Lemma fold_salary_ge0 (years : list Z) (v : loop_vars) :
  (0 <? salary_growth_rate) = true -> is_finite salary_growth_rate = true ->
  (0 <=? current_salary v) = true ->
  (0 <=? current_salary (fold_left body years v)) = true.
Proof.
  intros Hr Hf. revert v.
  induction years as [|y ys IH]; intros v Hv; [exact Hv|].
  simpl. apply IH. unfold body, loop_body. cbn [current_salary].
  apply (leb_ge0_r (current_salary v)); [exact Hv|].
  now apply mul_growth_ge.
Qed.

(** C8 (amended): with [salary_growth_rate > 0] (and finite) and
    [initial_salary >= 0], the salaries of the rows never decrease: for
    two consecutive rows, [salary[k] <= salary[k+1]]. *)
Theorem salary_never_decreases (k : nat) :
  (0 <? salary_growth_rate) = true -> is_finite salary_growth_rate = true ->
  (0 <=? initial_salary) = true ->
  (Z.of_nat k + 1 <= end_year - start_year)%Z ->
  exists snap snap',
    nth_error projection k = Some snap /\
    nth_error projection (S k) = Some snap' /\
    (Salary snap <=? Salary snap') = true.
Proof.
  intros Hr Hf Hs0 Hk.
  do 2 eexists. split; [|split].
  - unfold projection. apply projection_nth_error. lia.
  - unfold projection. apply projection_nth_error. lia.
  - unfold current_state_of. cbn [Salary].
    rewrite loop_entry_succ by lia. fold entry.
    unfold loop_body at 1. cbn [current_salary].
    assert (H0 : (0 <=? current_salary (entry k)) = true).
    { unfold entry, loop_entry. fold body. now apply fold_salary_ge0. }
    apply round2_mono; [exact H0|]. now apply mul_growth_ge.
Qed.

(** C7 (amended): with [expense_ratio = 1], in every simulated year whose
    after-tax income is finite the expenses are the whole after-tax income
    and the savings of the row are 0; the running net worth then advances
    by the growth factor alone,
    [net_worth' = (net_worth + 0) * (1 + asset_growth_rate)], which is
    [net_worth * (1 + asset_growth_rate)] unless [net_worth] is [-0.0]; the
    net worth of the next row is that value rounded to two decimal
    places. *)
Theorem full_expense_ratio (k : nat) :
  expense_ratio = 1 ->
  (Z.of_nat k <= end_year - start_year)%Z ->
  let net_worth := current_net_worth (entry k) in
  let salary := current_salary (entry k) in
  let after_tax_income :=
    (salary + net_worth * dividend_yield) * (1 - tax_rate) in
  is_finite after_tax_income = true ->
  (exists snap,
     nth_error projection k = Some snap /\
     Savings snap = 0 /\
     Expenses snap = After_tax_Income snap) /\
  current_net_worth (entry (S k))
  = (net_worth + 0) * (1 + asset_growth_rate) /\
  (net_worth <> -0 ->
   current_net_worth (entry (S k)) = net_worth * (1 + asset_growth_rate)) /\
  (forall snap',
     nth_error projection (S k) = Some snap' ->
     Net_Worth snap'
     = Py.round2 ((net_worth + 0) * (1 + asset_growth_rate))).
Proof.
  intros He Hk net_worth salary after_tax_income Hfin.
  assert (Hexp : after_tax_income * expense_ratio = after_tax_income)
    by (rewrite He; apply mul_one_r).
  assert (Hsav : after_tax_income - after_tax_income * expense_ratio = 0)
    by (rewrite Hexp; now apply sub_diag_finite).
  assert (Hnext : current_net_worth (entry (S k))
                  = (net_worth + 0) * (1 + asset_growth_rate)).
  { unfold entry. rewrite loop_entry_succ by lia. fold entry.
    unfold loop_body. cbn [current_net_worth].
    fold net_worth salary after_tax_income. now rewrite Hsav. }
  split; [|split; [exact Hnext|split]].
  - eexists. split; [unfold projection; apply projection_nth_error; lia|].
    unfold current_state_of. cbn [Savings Expenses After_tax_Income].
    fold entry. fold net_worth salary after_tax_income.
    rewrite Hsav, Hexp. split; reflexivity.
  - intros Hnz. now rewrite Hnext, add_zero_r.
  - intros snap' Hs'.
    assert (Hlt : (S k < length projection)%nat)
      by (apply nth_error_Some; congruence).
    unfold projection in Hs', Hlt. rewrite projection_length in Hlt.
    rewrite projection_nth_error in Hs' by exact Hlt.
    inversion Hs' as [Hsnap]. unfold current_state_of. cbn [Net_Worth].
    fold entry. now rewrite Hnext.
Qed.

End AmountClaims.

(** ** Concrete runs *)

Section ConcreteRuns.

#[local] Open Scope float_scope.

(** [round(x, 2)] on some floats: halves go to the even hundredth of the
    exact binary value, large and non-finite values are unchanged. *)
Example round2_examples :
  Py.round2 0.125 = 0.12 /\ Py.round2 0.375 = 0.38 /\
  Py.round2 2.675 = 2.67 /\ Py.round2 0.005 = 0.01 /\
  Py.round2 (0.1 + 0.2) = 0.3 /\ Py.round2 125537.75000000001 = 125537.75 /\
  Py.round2 (-0.001) = -0 /\ Py.round2 1e300 = 1e300 /\
  Py.round2 infinity = infinity /\ is_nan (Py.round2 nan) = true.
Proof. vm_compute. repeat split. Qed.

(** For a numerator that a float holds exactly, the float nearest to
    [N / 100] is the float division [N / 100.0]. *)
Example nearest_hundredth_is_division :
  forallb
    (fun N =>
       PrimFloat.Leibniz.eqb (SF2Prim (Py.nearest_hundredth false N))
                             (Py.true_div N 100))
    (Py.range_step 0 3000000 997
     ++ Py.range_step 9007199251740992 9007199254740992 997)
  = true.
Proof. vm_compute. reflexivity. Qed.

(** The percentages of the two grids of [main], divided by 100. *)
Example grid_rates :
  map (fun tax => Py.true_div tax 100) tax_rates
  = [0.2; 0.25; 0.3; 0.35; 0.4; 0.45; 0.5] /\
  map (fun growth => Py.true_div growth 100) growth_rates
  = [0.04; 0.06; 0.08; 0.1; 0.12; 0.14; 0.16; 0.18; 0.2].
Proof. vm_compute. split; reflexivity. Qed.

(** C6: the scenario of the specification.  One year gives the single row
    with dividend income 2000.00, total income 77000.00, after-tax income
    57750.00, expenses 40425.00 and savings 17325.00; run for two years,
    the second row has net worth 125537.75. *)
Theorem concrete_scenario :
  calculate_net_worth_projection 100000 75000 0.03 0.07 0.02 0.25 0.70
    2024 2024
  = [ {| Year := 2024; Net_Worth := 100000; Salary := 75000;
         Dividend_Income := 2000; Total_Income := 77000;
         After_tax_Income := 57750; Expenses := 40425;
         Savings := 17325 |} ] /\
  map Year
    (calculate_net_worth_projection 100000 75000 0.03 0.07 0.02 0.25 0.70
       2024 2025)
  = [2024; 2025]%Z /\
  map Net_Worth
    (calculate_net_worth_projection 100000 75000 0.03 0.07 0.02 0.25 0.70
       2024 2025)
  = [100000; 125537.75].
Proof. vm_compute. repeat split. Qed.

(** C1, as stated, fails: with [initial_net_worth = 0.125] (and the other
    arguments of the scenario) the first row has net worth 0.12, which is
    not [initial_net_worth]. *)
Lemma first_row_is_rounded :
  exists snap,
    nth_error
      (calculate_net_worth_projection 0.125 75000 0.03 0.07 0.02 0.25 0.70
         2024 2024) 0
    = Some snap /\
    Net_Worth snap = 0.12 /\
    (Net_Worth snap =? 0.125) = false.
Proof. eexists. vm_compute. repeat split. Qed.

(** C5, as stated, fails: with [start_year = 2030] and [end_year = 2025] the
    call raises nothing and returns the empty projection, and with
    [tax_rate = 1.0] it returns a projection of two rows. *)
Lemma invalid_input_not_rejected :
  call_projection 100000 75000 0.03 0.07 0.02 0.25 0.70 2030 2025
  = Py.Returned [] /\
  (forall e,
     call_projection 100000 75000 0.03 0.07 0.02 0.25 0.70 2030 2025
     <> Py.Raised e) /\
  exists df,
    call_projection 100000 75000 0.03 0.07 0.02 1.0 0.70 2024 2025
    = Py.Returned df /\
    length df = 2%nat /\
    map After_tax_Income df = [0; 0].
Proof.
  split; [reflexivity|]. split; [discriminate|].
  eexists. split; [reflexivity|]. vm_compute. split; reflexivity.
Qed.

Lemma snapshot_from_pre_update_state_witness :
  (Z.of_nat 1 <= 2025 - 2024)%Z /\
  exists snap,
    nth_error
      (calculate_net_worth_projection 100000 75000 0.03 0.07 0.02 0.25 0.70
         2024 2025) 1
    = Some snap /\
    Year snap = 2025%Z /\
    Net_Worth snap
    = Py.round2
        (current_net_worth
           (loop_entry 100000 75000 0.03 0.07 0.02 0.25 0.70 2024 2025 1)).
Proof.
  split; [lia|].
  destruct (snapshot_from_pre_update_state 100000 75000 0.03 0.07 0.02 0.25
              0.70 2024 2025 1 ltac:(lia))
    as (snap & Hn & Hy & Hw & _).
  exists snap. split; [exact Hn|]. split; [exact Hy|exact Hw].
Defined.

Lemma running_state_advances_witness :
  (Z.of_nat 0 + 1 <= 2025 - 2024)%Z /\
  current_salary
    (loop_entry 100000 75000 0.03 0.07 0.02 0.25 0.70 2024 2025 1)
  = current_salary
      (loop_entry 100000 75000 0.03 0.07 0.02 0.25 0.70 2024 2025 0)
    * (1 + 0.03).
Proof.
  split; [lia|].
  exact (proj1 (proj2 (running_state_advances 100000 75000 0.03 0.07 0.02
                         0.25 0.70 2024 2025 0 ltac:(lia)))).
Defined.

Lemma snapshot_count_and_years_witness :
  (2024 <= 2026)%Z /\
  Z.of_nat
    (length
       (calculate_net_worth_projection 100000 75000 0.03 0.07 0.02 0.25 0.70
          2024 2026))
  = (2026 - 2024 + 1)%Z.
Proof.
  split; [lia|].
  exact (proj1 (snapshot_count_and_years 100000 75000 0.03 0.07 0.02 0.25
                  0.70 2024 2026 ltac:(lia))).
Defined.

Lemma reversed_years_give_empty_projection_witness :
  (2025 < 2030)%Z /\
  call_projection 100000 75000 0.03 0.07 0.02 0.25 0.70 2030 2025
  = Py.Returned [].
Proof.
  split; [lia|].
  exact (proj1 (reversed_years_give_empty_projection 100000 75000 0.03 0.07
                  0.02 0.25 0.70 2030 2025 ltac:(lia))).
Defined.

Lemma sweep_shape_and_cells_witness :
  (2024 <= 2026)%Z /\
  exists table,
    sweep_rows 100000 75000 3 2 70 2024 2026 growth_rates tax_rates []
    = Py.Returned table /\
    length table = length growth_rates.
Proof.
  split; [lia|].
  destruct (sweep_shape_and_cells 100000 75000 3 2 70 2024 2026 growth_rates
              tax_rates ltac:(lia))
    as (table & Ht & Hl & _).
  exists table. split; [exact Ht|exact Hl].
Defined.

(** C7, as stated, fails.  In the scenario with [expense_ratio = 1] run
    from 2024 to 2028 every row has savings 0, yet the rows of index 3 and 4
    have net worth 122504.3 and 131079.6, and [122504.3 * (1 + 0.07)] is
    not 131079.6: the rows hold rounded values.  And from a net worth of
    1e308 that doubles each year, the second row has infinite after-tax
    income and its savings are NaN, not 0. *)
Lemma rounded_rows_break_multiplier :
  let df :=
    calculate_net_worth_projection 100000 75000 0.03 0.07 0.02 0.25 1
      2024 2028 in
  let df' :=
    calculate_net_worth_projection 1e308 75000 0.03 1 0.02 0.25 1
      2024 2025 in
  map Savings df = [0; 0; 0; 0; 0] /\
  (exists snap3 snap4,
     nth_error df 3 = Some snap3 /\ nth_error df 4 = Some snap4 /\
     Net_Worth snap3 = 122504.3 /\ Net_Worth snap4 = 131079.6 /\
     (Net_Worth snap4 =? Net_Worth snap3 * (1 + 0.07)) = false) /\
  (exists snap1,
     nth_error df' 1 = Some snap1 /\
     After_tax_Income snap1 = infinity /\
     is_nan (Savings snap1) = true /\
     (Savings snap1 =? 0) = false).
Proof.
  cbv zeta. split; [vm_compute; reflexivity|]. split.
  - do 2 eexists. vm_compute. repeat split.
  - eexists. vm_compute. repeat split.
Qed.

(** C8, as stated, fails: with [initial_salary = 0] and
    [salary_growth_rate = 0.03] the salary is 0 in every row, so the second
    is not greater than the first. *)
Lemma zero_salary_does_not_grow :
  let df :=
    calculate_net_worth_projection 100000 0 0.03 0.07 0.02 0.25 0.70
      2024 2025 in
  (0 <? 0.03) = true /\
  map Salary df = [0; 0] /\
  exists snap snap',
    nth_error df 0 = Some snap /\ nth_error df 1 = Some snap' /\
    (Salary snap <? Salary snap') = false.
Proof.
  cbv zeta. split; [reflexivity|]. split; [vm_compute; reflexivity|].
  do 2 eexists. vm_compute. repeat split.
Qed.

(** C10, as stated, fails: the arguments below satisfy its hypotheses, the
    net worth 1e308 doubles to infinity after the first year, and the
    dividend income of the second row, [infinity * 0], is NaN, which is
    not at least zero. *)
Lemma overflow_gives_nan :
  let df :=
    calculate_net_worth_projection 1e308 0 0.03 1 0 0.25 0.70 2024 2025 in
  ((0 <=? 1e308) && (0 <=? 0) && (0 <=? 0) && (0 <=? 0.25) && (0.25 <=? 1)
   && (0 <=? 0.70) && (0.70 <=? 1) && (-1 <=? 1) && (-1 <=? 0.03))%bool
  = true /\
  exists snap,
    nth_error df 1 = Some snap /\
    Net_Worth snap = infinity /\
    is_nan (Dividend_Income snap) = true /\
    (0 <=? Dividend_Income snap) = false.
Proof.
  cbv zeta. split; [reflexivity|].
  eexists. vm_compute. repeat split.
Qed.

Lemma amounts_never_negative_witness :
  ((0 <=? 100000) = true /\ (0 <=? 75000) = true /\ (0 <=? 0.02) = true /\
   (0 <=? 0.25) = true /\ (0.25 <=? 1) = true /\
   (0 <=? 0.70) = true /\ (0.70 <=? 1) = true /\
   (-1 <=? 0.07) = true /\ (-1 <=? 0.03) = true) /\
  not_negative
    (current_net_worth
       (loop_entry 100000 75000 0.03 0.07 0.02 0.25 0.70 2024 2025 1)).
Proof.
  split; [repeat split|].
  exact (proj1 (amounts_never_negative 100000 75000 0.03 0.07 0.02 0.25
                  0.70 2024 2025 1 eq_refl eq_refl eq_refl eq_refl eq_refl
                  eq_refl eq_refl eq_refl eq_refl)).
Defined.

Lemma salary_never_decreases_witness :
  ((0 <? 0.03) = true /\ is_finite 0.03 = true /\ (0 <=? 75000) = true /\
   (Z.of_nat 0 + 1 <= 2025 - 2024)%Z) /\
  exists snap snap',
    nth_error
      (calculate_net_worth_projection 100000 75000 0.03 0.07 0.02 0.25 0.70
         2024 2025) 0 = Some snap /\
    nth_error
      (calculate_net_worth_projection 100000 75000 0.03 0.07 0.02 0.25 0.70
         2024 2025) 1 = Some snap' /\
    (Salary snap <=? Salary snap') = true.
Proof.
  split; [repeat split; lia|].
  exact (salary_never_decreases 100000 75000 0.03 0.07 0.02 0.25 0.70 2024
           2025 0 eq_refl eq_refl eq_refl ltac:(lia)).
Defined.

Lemma full_expense_ratio_witness :
  ((1 : float) = 1 /\ (Z.of_nat 0 <= 2025 - 2024)%Z /\
   is_finite ((75000 + 100000 * 0.02) * (1 - 0.25)) = true) /\
  current_net_worth
    (loop_entry 100000 75000 0.03 0.07 0.02 0.25 1 2024 2025 1)
  = (100000 + 0) * (1 + 0.07).
Proof.
  split; [repeat split; lia|].
  exact (proj1 (proj2 (full_expense_ratio 100000 75000 0.03 0.07 0.02 0.25
                         1 2024 2025 0 eq_refl ltac:(lia) eq_refl))).
Defined.

End ConcreteRuns.

(** * Further properties of the projection *)

(** ** Ranges and rows *)

Lemma seq_from (a n : nat) : seq a n = map (Nat.add a) (seq 0 n).
Proof.
  induction a as [|a IH].
  - now rewrite map_id.
  - rewrite <- seq_shift, IH, map_map. reflexivity.
Qed.

Lemma range_app (lo mid hi : Z) :
  lo <= mid <= hi -> Py.range lo hi = Py.range lo mid ++ Py.range mid hi.
Proof.
  intros H. unfold Py.range.
  replace (Z.to_nat (hi - lo))
    with (Z.to_nat (mid - lo) + Z.to_nat (hi - mid))%nat by lia.
  rewrite seq_app, map_app. f_equal.
  rewrite Nat.add_0_l, seq_from, map_map. apply map_ext.
  intros k. lia.
Qed.

Lemma range_shift (lo hi d : Z) :
  Py.range (lo + d) (hi + d) = map (fun y => y + d) (Py.range lo hi).
Proof.
  unfold Py.range. rewrite map_map.
  replace (hi + d - (lo + d)) with (hi - lo) by lia.
  apply map_ext. intros k. lia.
Qed.

Lemma range_firstn (lo hi hi' : Z) :
  hi <= hi' ->
  Py.range lo hi = firstn (Z.to_nat (hi - lo)) (Py.range lo hi').
Proof.
  intros H. destruct (Z.le_gt_cases lo hi) as [Hle|Hgt].
  - rewrite (range_app lo hi hi') by lia.
    rewrite firstn_app, range_length, Nat.sub_diag, firstn_O, app_nil_r.
    rewrite <- (range_length lo hi) at 1. now rewrite firstn_all.
  - rewrite range_empty by lia.
    replace (Z.to_nat (hi - lo)) with 0%nat by lia. reflexivity.
Qed.

(** ** Rows, horizons and rates *)

Section MoreLoopFacts.

#[local] Open Scope float_scope.

Variables initial_net_worth initial_salary : float.
Variables salary_growth_rate asset_growth_rate : float.
Variables dividend_yield tax_rate expense_ratio : float.

Let body :=
  loop_body salary_growth_rate asset_growth_rate dividend_yield tax_rate
            expense_ratio.
Let emit := current_state_of dividend_yield tax_rate expense_ratio.
Let rows :=
  rows_from salary_growth_rate asset_growth_rate dividend_yield tax_rate
            expense_ratio.
Let step :=
  advance salary_growth_rate asset_growth_rate dividend_yield tax_rate
          expense_ratio.

Lemma rows_app (l1 l2 : list Z) (v : loop_vars) :
  rows (l1 ++ l2) v = rows l1 v ++ rows l2 (fold_left body l1 v).
Proof.
  revert v. induction l1 as [|y l1 IH]; intros v; simpl; [reflexivity|].
  f_equal. apply IH.
Qed.

Lemma rows_firstn (n : nat) (l : list Z) (v : loop_vars) :
  rows (firstn n l) v = firstn n (rows l v).
Proof.
  revert l v. induction n as [|n IH]; intros l v; [reflexivity|].
  destruct l as [|y l]; [reflexivity|]. simpl. f_equal. apply IH.
Qed.

(** The rows depend on the loop variables through the net worth and the
    salary only, not through the rows already stored. *)
Lemma rows_state_ext (l : list Z) (v v' : loop_vars) :
  current_net_worth v = current_net_worth v' ->
  current_salary v = current_salary v' ->
  rows l v = rows l v'.
Proof.
  revert v v'. induction l as [|y l IH]; intros v v' Hn Hs; [reflexivity|].
  unfold rows. cbn [rows_from]. fold rows. fold body.
  assert (He : current_state_of dividend_yield tax_rate expense_ratio v y
               = current_state_of dividend_yield tax_rate expense_ratio v' y)
    by (unfold current_state_of; now rewrite Hn, Hs).
  rewrite He, (IH (body v y) (body v' y)); [reflexivity| |];
    unfold body, loop_body; cbn [current_net_worth current_salary];
    now rewrite ?Hn, ?Hs.
Qed.

Lemma rows_shift (d : Z) (l : list Z) (v : loop_vars) :
  rows (map (fun y => (y + d)%Z) l) v = map (shift_year d) (rows l v).
Proof.
  revert v. induction l as [|y l IH]; intros v; [reflexivity|].
  unfold rows. cbn [map rows_from]. fold rows. fold body. rewrite <- IH.
  rewrite (rows_state_ext _ (body v (y + d)%Z) (body v y)); reflexivity.
Qed.

Lemma fold_running_state (l : list Z) (v : loop_vars) :
  (current_net_worth (fold_left body l v),
   current_salary (fold_left body l v))
  = Nat.iter (length l) step (current_net_worth v, current_salary v).
Proof.
  revert v. induction l as [|y l IH]; intros v; [reflexivity|].
  simpl length. rewrite Nat.iter_succ_r. simpl fold_left. rewrite IH.
  reflexivity.
Qed.

Lemma rows_salary (l : list Z) (v : loop_vars) :
  map Salary (rows l v)
  = map (fun k =>
           Py.round2
             (Nat.iter k (fun s => s * (1 + salary_growth_rate))
                       (current_salary v)))
        (seq 0 (length l)).
Proof.
  revert v. induction l as [|y l IH]; intros v; [reflexivity|].
  simpl. f_equal. rewrite IH, <- seq_shift, map_map.
  apply map_ext. intros k. now rewrite Nat.iter_succ_r.
Qed.


Lemma one_plus_zero : 1 + 0 = 1.
Proof. reflexivity. Qed.

Lemma iter_fixed {A} (f : A -> A) (x : A) (k : nat) :
  f x = x -> Nat.iter k f x = x.
Proof. intros H. induction k as [|k IH]; simpl; congruence. Qed.

Variables start_year end_year : Z.

Let projection :=
  calculate_net_worth_projection initial_net_worth initial_salary
    salary_growth_rate asset_growth_rate dividend_yield tax_rate
    expense_ratio start_year end_year.
Let entry :=
  loop_entry initial_net_worth initial_salary salary_growth_rate
    asset_growth_rate dividend_yield tax_rate expense_ratio start_year
    end_year.

Lemma projection_row (k : nat) (snap : YearlySnapshot) :
  nth_error projection k = Some snap ->
  (k < Z.to_nat (end_year - start_year + 1))%nat /\
  snap = emit (entry k) (start_year + Z.of_nat k)%Z.
Proof.
  intros Hk.
  assert (Hlt : (k < length projection)%nat)
    by (apply nth_error_Some; congruence).
  unfold projection in Hk, Hlt. rewrite projection_length in Hlt.
  rewrite projection_nth_error in Hk by exact Hlt.
  split; [exact Hlt|]. now inversion Hk.
Qed.

(** X1: a longer horizon only appends rows: the projection to [end_year] is
    the first [end_year - start_year + 1] rows of the projection to any
    later end year. *)
Theorem longer_horizon_extends (later_end_year : Z) :
  (end_year <= later_end_year)%Z ->
  projection
  = firstn (Z.to_nat (end_year - start_year + 1))
      (calculate_net_worth_projection initial_net_worth initial_salary
         salary_growth_rate asset_growth_rate dividend_yield tax_rate
         expense_ratio start_year later_end_year).
Proof.
  intros H. unfold projection. rewrite !projection_rows.
  fold rows. rewrite <- rows_firstn. f_equal.
  replace (end_year - start_year + 1)%Z with (end_year + 1 - start_year)%Z
    by lia.
  apply range_firstn. lia.
Qed.

(** X2: a projection can be cut after any year [mid] and restarted: the
    rows of [start_year .. end_year] are those of [start_year .. mid]
    followed by the rows of a projection over [mid + 1 .. end_year] that
    starts from the unrounded running net worth and salary reached after
    [mid]. *)
Theorem projection_restarts (mid : Z) :
  (start_year - 1 <= mid <= end_year)%Z ->
  let st :=
    running_state initial_net_worth initial_salary salary_growth_rate
      asset_growth_rate dividend_yield tax_rate expense_ratio
      (Z.to_nat (mid - start_year + 1)) in
  projection
  = calculate_net_worth_projection initial_net_worth initial_salary
      salary_growth_rate asset_growth_rate dividend_yield tax_rate
      expense_ratio start_year mid
    ++ calculate_net_worth_projection (fst st) (snd st)
         salary_growth_rate asset_growth_rate dividend_yield tax_rate
         expense_ratio (mid + 1) end_year.
Proof.
  intros H st. unfold projection. rewrite !projection_rows. fold rows.
  rewrite (range_app start_year (mid + 1) (end_year + 1)) by lia.
  rewrite rows_app. f_equal. apply rows_state_ext.
  - cbn [current_net_worth].
    change (current_net_worth ?v)
      with (fst (current_net_worth v, current_salary v)).
    fold body. rewrite fold_running_state, range_length.
    unfold st, running_state. fold step. do 2 f_equal. lia.
  - cbn [current_salary].
    change (current_salary ?v)
      with (snd (current_net_worth v, current_salary v)).
    fold body. rewrite fold_running_state, range_length.
    unfold st, running_state. fold step. do 2 f_equal. lia.
Qed.

(** X3: the calendar plays no part in the amounts: moving [start_year] and
    [end_year] by the same number of years moves the [Year] of every row by
    that number and changes nothing else. *)
Theorem years_only_label_rows (d : Z) :
  calculate_net_worth_projection initial_net_worth initial_salary
    salary_growth_rate asset_growth_rate dividend_yield tax_rate
    expense_ratio (start_year + d) (end_year + d)
  = map (shift_year d) projection.
Proof.
  unfold projection. rewrite !projection_rows. fold rows.
  replace (end_year + d + 1)%Z with (end_year + 1 + d)%Z by lia.
  rewrite range_shift. apply rows_shift.
Qed.

Lemma projection_salaries :
  map Salary projection
  = map (fun k =>
           Py.round2
             (Nat.iter k (fun s => s * (1 + salary_growth_rate))
                       initial_salary))
        (seq 0 (Z.to_nat (end_year - start_year + 1))).
Proof.
  unfold projection. rewrite projection_rows. fold rows.
  rewrite rows_salary, range_length. cbn [current_salary].
  do 2 f_equal. lia.
Qed.

(** X5: with both growth rates zero nothing compounds: every row shows the
    same salary, [round(initial_salary, 2)], and from each simulated year
    to the next the running net worth grows by exactly that year's
    unrounded savings. *)
Theorem zero_growth_rates :
  salary_growth_rate = 0 -> asset_growth_rate = 0 ->
  (forall k snap,
     nth_error projection k = Some snap ->
     Salary snap = Py.round2 initial_salary) /\
  (forall k,
     (Z.of_nat k <= end_year - start_year)%Z ->
     current_net_worth (entry (S k))
     = current_net_worth (entry k)
       + full_savings dividend_yield tax_rate expense_ratio
           (current_net_worth (entry k)) (current_salary (entry k))).
Proof.
  intros Hs Ha. split.
  - intros k snap Hk.
    destruct (projection_row k snap Hk) as [Hlt _].
    apply (map_nth_error Salary) in Hk.
    rewrite projection_salaries in Hk.
    rewrite nth_error_map, nth_error_seq in Hk.
    destruct (Nat.ltb_spec k (Z.to_nat (end_year - start_year + 1)));
      [|lia].
    cbn [option_map] in Hk. inversion Hk as [Heq].
    rewrite iter_fixed; [reflexivity|].
    now rewrite Hs, one_plus_zero, mul_one_r.
  - intros k Hk. unfold entry. rewrite loop_entry_succ by lia. fold entry.
    unfold loop_body. cbn [current_net_worth].
    rewrite Ha, one_plus_zero, mul_one_r. reflexivity.
Qed.

(** X6: with [tax_rate = 0] no income is taxed away: in every row the
    after-tax income is the total income. *)
Theorem zero_tax_rate :
  tax_rate = 0 ->
  forall k snap,
    nth_error projection k = Some snap ->
    After_tax_Income snap = Total_Income snap.
Proof.
  intros Ht k snap Hk.
  destruct (projection_row k snap Hk) as [_ ->].
  unfold emit, current_state_of. cbn [After_tax_Income Total_Income].
  rewrite Ht. change (1 - 0) with 1. now rewrite mul_one_r.
Qed.

End MoreLoopFacts.

(** X4: the salary column is geometric and depends on [initial_salary] and
    [salary_growth_rate] only: the salary of row [k] is the initial salary
    multiplied [k] times by [1 + salary_growth_rate], then rounded to two
    decimal places, and a run with any other net worth, asset growth,
    dividend yield, tax rate or expense ratio has the same salary column. *)
Theorem salary_depends_on_salary_only
    (initial_salary salary_growth_rate : float)
    (start_year end_year : Z)
    (initial_net_worth asset_growth_rate : float)
    (dividend_yield tax_rate expense_ratio : float)
    (initial_net_worth' asset_growth_rate' : float)
    (dividend_yield' tax_rate' expense_ratio' : float) :
  map Salary
    (calculate_net_worth_projection initial_net_worth initial_salary
       salary_growth_rate asset_growth_rate dividend_yield tax_rate
       expense_ratio start_year end_year)
  = map (fun k =>
           Py.round2
             (Nat.iter k (fun s => (s * (1 + salary_growth_rate))%float)
                       initial_salary))
        (seq 0 (Z.to_nat (end_year - start_year + 1))) /\
  map Salary
    (calculate_net_worth_projection initial_net_worth initial_salary
       salary_growth_rate asset_growth_rate dividend_yield tax_rate
       expense_ratio start_year end_year)
  = map Salary
      (calculate_net_worth_projection initial_net_worth' initial_salary
         salary_growth_rate asset_growth_rate' dividend_yield' tax_rate'
         expense_ratio' start_year end_year).
Proof.
  split; [apply projection_salaries|].
  now rewrite !projection_salaries.
Qed.

(** ** More order and exactness on binary64 *)

Lemma SFleb_refl (x : spec_float) :
  x <> S754_nan -> SFleb x x = true.
Proof.
  intros Hx. pose proof (SFeqb_refl x) as H. unfold SFeqb in H.
  unfold SFleb. destruct x; try congruence;
    destruct (SFcompare _ _) as [[| |]|]; congruence.
Qed.

Lemma SFleb_trans_ge0 (x y z : spec_float) :
  valid_binary x = true -> valid_binary y = true -> valid_binary z = true ->
  sf_ge0 x = true ->
  SFleb x y = true -> SFleb y z = true -> SFleb x z = true.
Proof.
  intros Hvx Hvy Hvz Hx Hxy Hyz.
  pose proof (SFleb_ge0_r x y Hxy Hx) as Hy.
  pose proof (SFleb_ge0_r y z Hyz Hy) as Hz.
  destruct x as [sx|sx| |sx mx ex]; try destruct sx; try discriminate;
    try (now apply SFleb_zero_l);
    (destruct z as [sz|sz| |sz mz ez]; try destruct sz; try discriminate;
     try (now apply SFleb_inf_r);
     destruct y as [sy|sy| |sy my ey]; try destruct sy; try discriminate).
  rewrite (SFleb_finite mx my ex ey 1074) in Hxy by (assumption || lia).
  rewrite (SFleb_finite my mz ey ez 1074) in Hyz by (assumption || lia).
  rewrite (SFleb_finite mx mz ex ez 1074) by (assumption || lia).
  apply Z.leb_le in Hxy, Hyz. apply Z.leb_le. lia.
Qed.

Lemma SFadd_ge (x s : spec_float) :
  valid_binary x = true -> valid_binary s = true ->
  sf_ge0 x = true -> sf_ge0 s = true ->
  SFleb x (SF64add x s) = true.
Proof.
  intros Hvx Hvs Hx Hs.
  destruct x as [sx|sx| |sx mx ex]; try destruct sx; try discriminate;
    destruct s as [ss|ss| |ss ms es]; try destruct ss; try discriminate;
    try reflexivity;
    try (apply SFleb_refl; discriminate).
  rewrite (SFadd_finite _ _ _ _ 1074 Hvx Hvs) by lia.
  rewrite <- (rnd_id false mx ex 1074 Hvx) at 1
    by (apply valid_finite in Hvx; lia).
  apply valid_finite in Hvx, Hvs.
  pose proof (pow2_pos (ex + 1074) ltac:(lia)).
  pose proof (pow2_pos (es + 1074) ltac:(lia)).
  apply rnd_mono; [lia|nia|nia].
Qed.

Lemma SFmul_not_nan (x y : spec_float) :
  SF64mul x y <> S754_nan -> x <> S754_nan /\ y <> S754_nan.
Proof.
  destruct x as [sx|sx| |sx mx ex]; destruct y as [sy|sy| |sy my ey];
    cbn; intros H; split; congruence.
Qed.

Lemma SFadd_not_nan (x y : spec_float) :
  SF64add x y <> S754_nan -> x <> S754_nan /\ y <> S754_nan.
Proof.
  destruct x as [sx|sx| |sx mx ex]; destruct y as [sy|sy| |sy my ey];
    cbn; intros H; split; congruence.
Qed.

Lemma sf_round2_not_nan (x : spec_float) :
  sf_round2 x <> S754_nan -> x <> S754_nan.
Proof. destruct x; cbn; congruence. Qed.

Lemma SFmul_zero_r (x : spec_float) :
  match x with S754_zero _ | S754_finite _ _ _ => True | _ => False end ->
  exists s, SF64mul x (S754_zero false) = S754_zero s.
Proof.
  destruct x as [sx|sx| |sx mx ex]; try contradiction; intros _;
    eexists; reflexivity.
Qed.

(** [x - x * 0] is [x], up to the sign of a zero. *)
Lemma SFsub_mul_zero (x : spec_float) :
  match x with S754_zero _ | S754_finite _ _ _ => True | _ => False end ->
  SF64sub x (SF64mul x (S754_zero false)) = x \/
  exists s s',
    x = S754_zero s /\
    SF64sub x (SF64mul x (S754_zero false)) = S754_zero s'.
Proof.
  destruct x as [sx|sx| |sx mx ex]; try contradiction; intros _.
  - right. destruct sx; do 2 eexists; split; reflexivity.
  - left. reflexivity.
Qed.

Section MorePrimFloats.

#[local] Open Scope float_scope.

Lemma is_nan_false_iff (x : float) :
  is_nan x = false <-> Prim2SF x <> S754_nan.
Proof.
  rewrite is_nan_spec. destruct (Prim2SF x); split; congruence.
Qed.

Lemma not_negative_leb (x : float) :
  not_negative x -> is_nan x = false -> (0 <=? x) = true.
Proof. intros [H|H] Hn; congruence. Qed.

Lemma leb_zero_not_nan (x : float) : (0 <=? x) = true -> is_nan x = false.
Proof.
  rewrite leb_zero_spec, is_nan_spec.
  destruct (Prim2SF x); try destruct s; simpl; congruence.
Qed.

Lemma leb_refl_ge0 (x : float) : (0 <=? x) = true -> (x <=? x) = true.
Proof.
  intros H. apply leb_zero_not_nan, is_nan_false_iff in H.
  rewrite leb_spec. now apply SFleb_refl.
Qed.

Lemma leb_trans_ge0 (x y z : float) :
  (0 <=? x) = true -> (x <=? y) = true -> (y <=? z) = true ->
  (x <=? z) = true.
Proof.
  rewrite leb_zero_spec, !leb_spec.
  apply SFleb_trans_ge0; apply Prim2SF_valid.
Qed.

Lemma add_ge (x s : float) :
  (0 <=? x) = true -> (0 <=? s) = true -> (x <=? x + s) = true.
Proof.
  rewrite !leb_zero_spec, leb_spec, add_spec.
  apply SFadd_ge; apply Prim2SF_valid.
Qed.

Lemma mul_not_nan (x y : float) :
  is_nan (x * y) = false -> is_nan x = false /\ is_nan y = false.
Proof. rewrite !is_nan_false_iff, mul_spec. apply SFmul_not_nan. Qed.

Lemma add_not_nan (x y : float) :
  is_nan (x + y) = false -> is_nan x = false /\ is_nan y = false.
Proof. rewrite !is_nan_false_iff, add_spec. apply SFadd_not_nan. Qed.

Lemma round2_not_nan (x : float) :
  is_nan (Py.round2 x) = false -> is_nan x = false.
Proof.
  rewrite !is_nan_false_iff, Prim2SF_round2. apply sf_round2_not_nan.
Qed.

Lemma round2_ge0 (x : float) :
  (0 <=? x) = true -> (0 <=? Py.round2 x) = true.
Proof. rewrite !leb_zero_spec, Prim2SF_round2. apply sf_round2_ge0. Qed.

Lemma sub_not_negative (x y : float) :
  (0 <=? y) = true -> (y <=? x) = true -> not_negative (x - y).
Proof.
  intros Hy Hle. pose proof (leb_ge0_r y x Hy Hle) as Hx.
  revert Hx Hy Hle.
  rewrite !leb_zero_spec, leb_spec, not_negative_spec, sub_spec.
  intros Hx Hy Hle. apply SFsub_not_neg; try apply Prim2SF_valid; assumption.
Qed.

(** [1 + r] for a finite [r >= 0]: at least 1, and finite. *)
Lemma one_plus_nonneg (r : float) :
  (0 <=? r) = true -> is_finite r = true ->
  SFleb sf_one (Prim2SF (1 + r)) = true /\
  SFleb (Prim2SF (1 + r)) sf_max = true.
Proof.
  rewrite leb_zero_spec, is_finite_spec, add_spec, Prim2SF_one.
  pose proof (Prim2SF_valid r) as Hv.
  destruct (Prim2SF r) as [s|s| |s m e]; try destruct s; try discriminate;
    intros _ _; try (split; reflexivity).
  now apply SFadd_one_bounds.
Qed.

Lemma mul_growth_ge0 (x r : float) :
  (0 <=? x) = true -> (0 <=? r) = true -> is_finite r = true ->
  (x <=? x * (1 + r)) = true.
Proof.
  intros Hx Hr Hf. rewrite leb_zero_spec in Hx.
  destruct (one_plus_nonneg r Hr Hf) as [H1 Hmax].
  rewrite leb_spec, mul_spec.
  apply SFmul_ge; try apply Prim2SF_valid; assumption.
Qed.

Lemma is_finite_cases (x : float) :
  is_finite x = true ->
  match Prim2SF x with
  | S754_zero _ | S754_finite _ _ _ => True
  | _ => False
  end.
Proof. rewrite is_finite_spec. destruct (Prim2SF x); congruence || tauto. Qed.

Lemma eqb_zero_of_zero (x : float) (s : bool) :
  Prim2SF x = S754_zero s -> (x =? 0) = true.
Proof. intros H. rewrite eqb_spec, H. reflexivity. Qed.

(** Nothing spent: [x * 0] is zero and [x - x * 0] is [x], also after
    rounding to two decimal places. *)
Lemma nothing_spent (x : float) :
  is_finite x = true ->
  (Py.round2 (x * 0) =? 0) = true /\
  (Py.round2 (x - x * 0) =? Py.round2 x) = true.
Proof.
  intros Hf. apply is_finite_cases in Hf. split.
  - destruct (SFmul_zero_r _ Hf) as [s Hs].
    apply (eqb_zero_of_zero _ s).
    now rewrite Prim2SF_round2, mul_spec, Prim2SF_zero, Hs.
  - rewrite eqb_spec, !Prim2SF_round2, sub_spec, mul_spec, Prim2SF_zero.
    destruct (SFsub_mul_zero _ Hf) as [He|(s & s' & Hx & He)].
    + rewrite He. rewrite SFeqb_refl.
      pose proof (Prim2SF_valid x) as Hv.
      destruct (Prim2SF x) as [sx|sx| |sx mx ex]; try contradiction;
        try reflexivity.
      cbn [sf_round2].
      destruct (Z.lt_ge_cases 0 (Py.hundredths mx ex)) as [Hp|Hn].
      * rewrite nearest_hundredth_rnd by exact Hp. unfold rnd, pack.
        destruct (Py.round_half_even_div _ _); try reflexivity;
          destruct (Z.ltb _ _); destruct (Z.leb _ _); reflexivity.
      * now rewrite nearest_hundredth_zero by lia.
    + rewrite He, Hx. reflexivity.
Qed.

End MorePrimFloats.

(** ** Ordered columns *)

Section MoreAmountFacts.

#[local] Open Scope float_scope.

Variables initial_net_worth initial_salary : float.
Variables salary_growth_rate asset_growth_rate : float.
Variables dividend_yield tax_rate expense_ratio : float.
Variables start_year end_year : Z.

Let body :=
  loop_body salary_growth_rate asset_growth_rate dividend_yield tax_rate
            expense_ratio.
Let emit := current_state_of dividend_yield tax_rate expense_ratio.
Let projection :=
  calculate_net_worth_projection initial_net_worth initial_salary
    salary_growth_rate asset_growth_rate dividend_yield tax_rate
    expense_ratio start_year end_year.
Let entry :=
  loop_entry initial_net_worth initial_salary salary_growth_rate
    asset_growth_rate dividend_yield tax_rate expense_ratio start_year
    end_year.
Let grow (s : float) : float := s * (1 + salary_growth_rate).

Lemma ge0_ge_minus_one (g : float) : (0 <=? g) = true -> (-1 <=? g) = true.
Proof.
  rewrite leb_zero_spec, leb_spec.
  destruct (Prim2SF g) as [s|s| |s m e]; try destruct s; try discriminate;
    reflexivity.
Qed.

Lemma projection_salary (k : nat) (snap : YearlySnapshot) :
  nth_error projection k = Some snap ->
  Salary snap = Py.round2 (Nat.iter k grow initial_salary).
Proof.
  intros Hk.
  destruct (projection_row _ _ _ _ _ _ _ _ _ k snap Hk) as [Hlt _].
  apply (map_nth_error Salary) in Hk.
  unfold projection in Hk. rewrite projection_rows, rows_salary in Hk.
  rewrite nth_error_map, nth_error_seq, range_length in Hk.
  destruct (Nat.ltb_spec k (Z.to_nat (end_year + 1 - start_year)));
    [|lia].
  cbn [option_map current_salary] in Hk. now inversion Hk.
Qed.

Lemma salary_iter_ge0 (k : nat) :
  (0 <=? salary_growth_rate) = true -> is_finite salary_growth_rate = true ->
  (0 <=? initial_salary) = true ->
  (0 <=? Nat.iter k grow initial_salary) = true.
Proof.
  intros Hr Hf Hs. induction k as [|k IH]; [exact Hs|].
  simpl. apply (leb_ge0_r (Nat.iter k grow initial_salary)); [exact IH|].
  now apply mul_growth_ge0.
Qed.

Lemma salary_iter_mono (i d : nat) :
  (0 <=? salary_growth_rate) = true -> is_finite salary_growth_rate = true ->
  (0 <=? initial_salary) = true ->
  (Nat.iter i grow initial_salary <=? Nat.iter (i + d) grow initial_salary)
  = true.
Proof.
  intros Hr Hf Hs. induction d as [|d IH].
  - rewrite Nat.add_0_r. apply leb_refl_ge0. now apply salary_iter_ge0.
  - rewrite Nat.add_succ_r. simpl.
    apply (leb_trans_ge0 _ (Nat.iter (i + d) grow initial_salary));
      [now apply salary_iter_ge0|exact IH|].
    apply mul_growth_ge0; try assumption. now apply salary_iter_ge0.
Qed.

Lemma salary_rows_leb (i j : nat) (snap_i snap_j : YearlySnapshot) :
  (0 <=? salary_growth_rate) = true -> is_finite salary_growth_rate = true ->
  (0 <=? initial_salary) = true ->
  (i <= j)%nat ->
  nth_error projection i = Some snap_i ->
  nth_error projection j = Some snap_j ->
  (0 <=? Salary snap_i) = true /\ (Salary snap_i <=? Salary snap_j) = true.
Proof.
  intros Hr Hf Hs Hij Hi Hj.
  rewrite (projection_salary i snap_i Hi), (projection_salary j snap_j Hj).
  split.
  - apply round2_ge0. now apply salary_iter_ge0.
  - apply round2_mono; [now apply salary_iter_ge0|].
    replace j with (i + (j - i))%nat by lia. now apply salary_iter_mono.
Qed.

(** X8: with a finite [salary_growth_rate >= 0] and [initial_salary >= 0]
    the salary column is ordered: every salary is at least zero, and of
    any two rows the later one has the salary that is at least as large. *)
Theorem salaries_are_ordered (i j : nat) (snap_i snap_j : YearlySnapshot) :
  (0 <=? salary_growth_rate) = true -> is_finite salary_growth_rate = true ->
  (0 <=? initial_salary) = true ->
  (i <= j)%nat ->
  nth_error projection i = Some snap_i ->
  nth_error projection j = Some snap_j ->
  (0 <=? Salary snap_i) = true /\
  (0 <=? Salary snap_j) = true /\
  (Salary snap_i <=? Salary snap_j) = true.
Proof.
  intros Hr Hf Hs Hij Hi Hj.
  destruct (salary_rows_leb i j snap_i snap_j Hr Hf Hs Hij Hi Hj) as [H0 Hle].
  split; [exact H0|]. split; [|exact Hle].
  now apply (leb_ge0_r (Salary snap_i)).
Qed.

Section NetWorth.

Hypothesis net_worth_ge0 : (0 <=? initial_net_worth) = true.
Hypothesis salary_ge0 : (0 <=? initial_salary) = true.
Hypothesis yield_ge0 : (0 <=? dividend_yield) = true.
Hypothesis tax_ge0 : (0 <=? tax_rate) = true.
Hypothesis tax_le1 : (tax_rate <=? 1) = true.
Hypothesis expense_ge0 : (0 <=? expense_ratio) = true.
Hypothesis expense_le1 : (expense_ratio <=? 1) = true.
Hypothesis growth_ge0 : (0 <=? asset_growth_rate) = true.
Hypothesis growth_finite : is_finite asset_growth_rate = true.
Hypothesis salary_growth_ge : (-1 <=? salary_growth_rate) = true.

Lemma entry_not_negative (k : nat) :
  not_negative (current_net_worth (entry k)) /\
  not_negative (current_salary (entry k)).
Proof.
  unfold entry, loop_entry.
  apply fold_not_negative; try assumption.
  - now apply ge0_ge_minus_one.
  - split; now apply leb_zero_not_negative.
Qed.

Lemma full_savings_not_negative (k : nat) :
  not_negative
    (full_savings dividend_yield tax_rate expense_ratio
       (current_net_worth (entry k)) (current_salary (entry k))).
Proof.
  destruct (entry_not_negative k) as [Hn Hs]. unfold full_savings.
  apply sub_mul_not_negative; try assumption.
  apply mul_not_negative; [|now apply one_minus_not_negative].
  apply add_not_negative; [exact Hs|].
  apply mul_not_negative; [exact Hn|now apply leb_zero_not_negative].
Qed.

Lemma net_worth_step (k : nat) :
  (Z.of_nat k <= end_year - start_year)%Z ->
  is_nan (current_net_worth (entry (S k))) = false ->
  (0 <=? current_net_worth (entry k)) = true /\
  (current_net_worth (entry k) <=? current_net_worth (entry (S k))) = true.
Proof.
  intros Hk Hnan.
  unfold entry in Hnan |- *. rewrite loop_entry_succ in Hnan |- * by lia.
  fold entry in Hnan |- *.
  unfold loop_body in Hnan |- *. cbn [current_net_worth] in Hnan |- *.
  fold (full_savings dividend_yield tax_rate expense_ratio
          (current_net_worth (entry k)) (current_salary (entry k)))
    in Hnan |- *.
  set (nw := current_net_worth (entry k)) in *.
  set (sav := full_savings _ _ _ _ _) in *.
  destruct (mul_not_nan _ _ Hnan) as [Hsum _].
  destruct (add_not_nan _ _ Hsum) as [Hn Hs].
  assert (Hn0 : (0 <=? nw) = true)
    by (apply not_negative_leb; [apply (entry_not_negative k)|exact Hn]).
  assert (Hs0 : (0 <=? sav) = true)
    by (apply not_negative_leb; [apply full_savings_not_negative|exact Hs]).
  split; [exact Hn0|].
  pose proof (add_ge nw sav Hn0 Hs0) as H1.
  apply (leb_trans_ge0 _ (nw + sav)); [exact Hn0|exact H1|].
  apply mul_growth_ge0; try assumption.
  now apply (leb_ge0_r nw).
Qed.

Lemma net_worth_chain (i d : nat) :
  (Z.of_nat (i + d) <= end_year - start_year + 1)%Z ->
  is_nan (current_net_worth (entry (i + d))) = false ->
  (0 <=? current_net_worth (entry i)) = true /\
  (current_net_worth (entry i) <=? current_net_worth (entry (i + d))) = true.
Proof.
  induction d as [|d IH]; intros Hk Hnan.
  - rewrite Nat.add_0_r in *.
    assert (H0 : (0 <=? current_net_worth (entry i)) = true)
      by (apply not_negative_leb; [apply (entry_not_negative i)|exact Hnan]).
    split; [exact H0|now apply leb_refl_ge0].
  - rewrite Nat.add_succ_r in *.
    destruct (net_worth_step (i + d) ltac:(lia) Hnan) as [H0 Hle].
    destruct (IH ltac:(lia) (leb_zero_not_nan _ H0)) as [Hi Hid].
    split; [exact Hi|]. now apply (leb_trans_ge0 _ _ _ Hi Hid).
Qed.

Lemma net_worth_rows_leb (i j : nat) (snap_i snap_j : YearlySnapshot) :
  (i <= j)%nat ->
  nth_error projection i = Some snap_i ->
  nth_error projection j = Some snap_j ->
  is_nan (Net_Worth snap_j) = false ->
  (0 <=? Net_Worth snap_i) = true /\
  (Net_Worth snap_i <=? Net_Worth snap_j) = true.
Proof.
  intros Hij Hi Hj Hnan.
  destruct (projection_row _ _ _ _ _ _ _ _ _ i snap_i Hi) as [_ Hsi].
  destruct (projection_row _ _ _ _ _ _ _ _ _ j snap_j Hj) as [Hlt Hsj].
  assert (Hvi : Net_Worth snap_i = Py.round2 (current_net_worth (entry i)))
    by (rewrite Hsi; reflexivity).
  assert (Hvj : Net_Worth snap_j = Py.round2 (current_net_worth (entry j)))
    by (rewrite Hsj; reflexivity).
  rewrite Hvj in Hnan. apply round2_not_nan in Hnan.
  rewrite Hvi, Hvj.
  replace j with (i + (j - i))%nat in Hnan |- * by lia.
  destruct (net_worth_chain i (j - i) ltac:(lia) Hnan) as [H0 Hle].
  split; [now apply round2_ge0|now apply round2_mono].
Qed.

End NetWorth.

End MoreAmountFacts.

Section MoreClaims.

#[local] Open Scope float_scope.

Variables initial_net_worth initial_salary : float.
Variables salary_growth_rate asset_growth_rate : float.
Variables dividend_yield tax_rate expense_ratio : float.
Variables start_year end_year : Z.

Let projection :=
  calculate_net_worth_projection initial_net_worth initial_salary
    salary_growth_rate asset_growth_rate dividend_yield tax_rate
    expense_ratio start_year end_year.
Let entry :=
  loop_entry initial_net_worth initial_salary salary_growth_rate
    asset_growth_rate dividend_yield tax_rate expense_ratio start_year
    end_year.

(** X9: with amounts and ratios in their domains and a finite
    [asset_growth_rate >= 0], net worth never falls: of any two rows, if the
    net worth of the later one is a number (not NaN, which only an overflow
    produces), it is at least the net worth of the earlier one, which is at
    least zero. *)
Theorem net_worth_never_falls (i j : nat) (snap_i snap_j : YearlySnapshot) :
  (0 <=? initial_net_worth) = true -> (0 <=? initial_salary) = true ->
  (0 <=? dividend_yield) = true ->
  (0 <=? tax_rate) = true -> (tax_rate <=? 1) = true ->
  (0 <=? expense_ratio) = true -> (expense_ratio <=? 1) = true ->
  (0 <=? asset_growth_rate) = true -> is_finite asset_growth_rate = true ->
  (-1 <=? salary_growth_rate) = true ->
  (i <= j)%nat ->
  nth_error projection i = Some snap_i ->
  nth_error projection j = Some snap_j ->
  is_nan (Net_Worth snap_j) = false ->
  (0 <=? Net_Worth snap_i) = true /\
  (Net_Worth snap_i <=? Net_Worth snap_j) = true.
Proof.
  intros. now apply (net_worth_rows_leb initial_net_worth initial_salary
                       salary_growth_rate asset_growth_rate dividend_yield
                       tax_rate expense_ratio start_year end_year)
                with (i := i) (j := j).
Qed.

(** X7: with [expense_ratio = 0] nothing is spent: in every row whose
    after-tax income is finite, the expenses are zero and the savings equal
    the after-tax income. *)
Theorem zero_expense_ratio (k : nat) (snap : YearlySnapshot) :
  expense_ratio = 0 ->
  nth_error projection k = Some snap ->
  let net_worth := current_net_worth (entry k) in
  let salary := current_salary (entry k) in
  let after_tax_income :=
    (salary + net_worth * dividend_yield) * (1 - tax_rate) in
  is_finite after_tax_income = true ->
  (Expenses snap =? 0) = true /\
  (Savings snap =? After_tax_Income snap) = true.
Proof.
  intros He Hk net_worth salary after_tax_income Hf.
  destruct (projection_row _ _ _ _ _ _ _ _ _ k snap Hk) as [_ ->].
  unfold current_state_of. cbn [Expenses Savings After_tax_Income].
  fold entry. fold net_worth salary after_tax_income. rewrite He.
  now apply nothing_spent.
Qed.

End MoreClaims.

(** ** The summary statistics *)

Lemma summary_of_frame (df : DataFrame) :
  df <> [] ->
  exists first_year final_year,
    nth_error df 0 = Some first_year /\
    nth_error df (length df - 1) = Some final_year /\
    summary_statistics df
    = Py.Returned
        {| total_net_worth_growth :=
             {| metric_value := Net_Worth final_year;
                metric_delta :=
                  (Net_Worth final_year - Net_Worth first_year)%float |};
           final_annual_salary :=
             {| metric_value := Salary final_year;
                metric_delta :=
                  (Salary final_year - Salary first_year)%float |};
           final_annual_dividend_income :=
             {| metric_value := Dividend_Income final_year;
                metric_delta :=
                  (Dividend_Income final_year
                   - Dividend_Income first_year)%float |} |}.
Proof.
  intros Hne. destruct (iloc_last_nonempty df Hne) as (final & Hl & Hn & _).
  destruct df as [|first df']; [congruence|].
  exists first, final. split; [reflexivity|]. split; [exact Hn|].
  unfold summary_statistics. rewrite Hl. reflexivity.
Qed.

Lemma projection_nonempty
    (initial_net_worth initial_salary : float)
    (salary_growth_rate asset_growth_rate : float)
    (dividend_yield tax_rate expense_ratio : float)
    (start_year end_year : Z) :
  start_year <= end_year ->
  calculate_net_worth_projection initial_net_worth initial_salary
    salary_growth_rate asset_growth_rate dividend_yield tax_rate
    expense_ratio start_year end_year <> [].
Proof.
  intros Hle H. apply (f_equal (@length _)) in H.
  rewrite projection_length in H. simpl in H. lia.
Qed.

Section SummaryClaims.

#[local] Open Scope float_scope.

Variables initial_net_worth initial_salary : float.
Variables salary_growth_rate asset_growth_rate : float.
Variables dividend_yield tax_rate expense_ratio : float.
Variables start_year end_year : Z.

Let projection :=
  calculate_net_worth_projection initial_net_worth initial_salary
    salary_growth_rate asset_growth_rate dividend_yield tax_rate
    expense_ratio start_year end_year.


(** X12: with a finite [salary_growth_rate >= 0] and [initial_salary >= 0]
    the summary never shows a falling salary: the final salary is at least
    zero and its change since the first year is not negative. *)
Theorem salary_change_not_negative :
  (0 <=? salary_growth_rate) = true -> is_finite salary_growth_rate = true ->
  (0 <=? initial_salary) = true ->
  (start_year <= end_year)%Z ->
  exists s,
    summary_statistics projection = Py.Returned s /\
    (0 <=? metric_value (final_annual_salary s)) = true /\
    not_negative (metric_delta (final_annual_salary s)).
Proof.
  intros Hr Hf Hs Hle.
  destruct (summary_of_frame projection) as (first & final & H0 & Hn & Hsum).
  { now apply projection_nonempty. }
  eexists. split; [exact Hsum|]. cbn.
  destruct (salary_rows_leb _ _ _ _ _ _ _ _ _ 0 _ first final Hr Hf Hs
              ltac:(lia) H0 Hn) as [Hf0 Hfl].
  split.
  - now apply (leb_ge0_r (Salary first)).
  - now apply sub_not_negative.
Qed.

(** X13: with amounts and ratios in their domains and a finite
    [asset_growth_rate >= 0], the summary never shows a falling net worth:
    when the final net worth is a number (not NaN), its change since the
    first year is not negative. *)
Theorem net_worth_change_not_negative :
  (0 <=? initial_net_worth) = true -> (0 <=? initial_salary) = true ->
  (0 <=? dividend_yield) = true ->
  (0 <=? tax_rate) = true -> (tax_rate <=? 1) = true ->
  (0 <=? expense_ratio) = true -> (expense_ratio <=? 1) = true ->
  (0 <=? asset_growth_rate) = true -> is_finite asset_growth_rate = true ->
  (-1 <=? salary_growth_rate) = true ->
  (start_year <= end_year)%Z ->
  exists s,
    summary_statistics projection = Py.Returned s /\
    (is_nan (metric_value (total_net_worth_growth s)) = false ->
     (0 <=? metric_value (total_net_worth_growth s)) = true /\
     not_negative (metric_delta (total_net_worth_growth s))).
Proof.
  intros Hn0 Hs0 Hd Ht0 Ht1 He0 He1 Hg Hgf Hsg Hle.
  destruct (summary_of_frame projection) as (first & final & H0 & Hn & Hsum).
  { now apply projection_nonempty. }
  eexists. split; [exact Hsum|]. cbn. intros Hnan.
  destruct (net_worth_rows_leb _ _ _ _ _ _ _ _ _ Hn0 Hs0 Hd Ht0 Ht1 He0 He1
              Hg Hgf Hsg 0 _ first final ltac:(lia) H0 Hn Hnan)
    as [Hf0 Hfl].
  split.
  - now apply (leb_ge0_r (Net_Worth first)).
  - now apply sub_not_negative.
Qed.

End SummaryClaims.

(** ** The sweep and the summary in [main] *)

Section MainClaims.

#[local] Open Scope float_scope.

Variables initial_net_worth initial_salary : float.
Variables salary_growth asset_growth dividend_yield tax_rate expense_ratio
  : float.
Variables start_year end_year : Z.



(** X14: [main] asks for [end_year >= start_year + 1], and with that
    nothing it computes can fail: the base frame has at least two rows, the
    sensitivity table has nine rows of seven cells, and the summary reads
    two different rows, those of [start_year] and of [end_year]. *)
Theorem main_never_raises :
  (start_year + 1 <= end_year)%Z ->
  exists df table s first_year final_year,
    main_outputs initial_net_worth initial_salary salary_growth asset_growth
      dividend_yield tax_rate expense_ratio start_year end_year
    = Py.Returned (df, table, s) /\
    (2 <= length df)%nat /\
    length table = 9%nat /\
    (forall r, In r table -> length r = 7%nat) /\
    nth_error df 0 = Some first_year /\
    nth_error df (length df - 1) = Some final_year /\
    Year first_year = start_year /\ Year final_year = end_year /\
    metric_value (total_net_worth_growth s) = Net_Worth final_year /\
    metric_delta (total_net_worth_growth s)
    = Net_Worth final_year - Net_Worth first_year.
Proof.
  intros Hle. unfold main_outputs, main_projection, call_projection.
  cbn [Py.bind].
  set (df := calculate_net_worth_projection _ _ _ _ _ _ _ _ _).
  rewrite sensitivity_data_grids, sweep_rows_returns by lia.
  cbn [Py.bind].
  destruct (summary_of_frame df) as (first & final & H0 & Hn & Hs).
  { apply projection_nonempty. lia. }
  rewrite Hs. cbn [Py.bind].
  assert (Hlen : length df = Z.to_nat (end_year - start_year + 1))
    by apply projection_length.
  do 3 eexists. exists first, final. split; [reflexivity|].
  split; [lia|]. split; [reflexivity|]. split.
  { intros r Hr. cbn in Hr. intuition (subst; reflexivity). }
  split; [exact H0|]. split; [exact Hn|].
  destruct (projection_row _ _ _ _ _ _ _ _ _ _ _ H0) as [_ Hf0].
  destruct (projection_row _ _ _ _ _ _ _ _ _ _ _ Hn) as [_ Hfn].
  rewrite Hf0, Hfn. unfold current_state_of.
  cbn [Year metric_value metric_delta total_net_worth_growth].
  repeat split; try reflexivity; lia.
Qed.

End MainClaims.

(** X15: the table agrees with the base run: when the tax and asset growth
    sliders stand on values of the two grids, the cell of that growth row
    and that tax column is the final net worth of the base run, the value
    of the first metric of the summary. *)
Theorem table_contains_base_run
    (initial_net_worth initial_salary : float)
    (salary_growth dividend_yield expense_ratio : float)
    (start_year end_year : Z) (i j : nat) (growth tax : Z) :
  (start_year <= end_year)%Z ->
  nth_error growth_rates i = Some growth ->
  nth_error tax_rates j = Some tax ->
  exists df table s r,
    main_outputs initial_net_worth initial_salary salary_growth
      (Py.float_of_int growth) dividend_yield (Py.float_of_int tax)
      expense_ratio start_year end_year
    = Py.Returned (df, table, s) /\
    nth_error table i = Some r /\
    nth_error r j = Some (metric_value (total_net_worth_growth s)).
Proof.
  intros Hle Hi Hj. unfold main_outputs, main_projection, call_projection.
  cbn [Py.bind].
  set (df := calculate_net_worth_projection _ _ _ _ _ _ _ _ _).
  unfold sensitivity_data. rewrite sweep_rows_returns by lia.
  cbn [Py.bind].
  destruct (summary_of_frame df) as (first & final & H0 & Hn & Hs).
  { apply projection_nonempty. lia. }
  rewrite Hs. cbn [Py.bind].
  destruct (iloc_last_nonempty df) as (last & _ & Hl & Hf).
  { apply projection_nonempty. lia. }
  do 4 eexists. split; [reflexivity|]. split.
  - rewrite app_nil_l, nth_error_map, Hi. reflexivity.
  - rewrite nth_error_map, Hj. cbn [option_map metric_value
                                     total_net_worth_growth].
    f_equal. fold (Py.true_div growth 100). 
    change (Py.float_of_int growth / 100)%float
      with (Py.true_div growth 100) in df.
    change (Py.float_of_int tax / 100)%float
      with (Py.true_div tax 100) in df.
    fold df. rewrite Hf. congruence.
Qed.

(** ** Concrete runs of the further properties *)

Section MoreConcreteRuns.

#[local] Open Scope float_scope.

Lemma longer_horizon_extends_witness :
  (2025 <= 2027)%Z /\
  calculate_net_worth_projection 100000 75000 0.03 0.07 0.02 0.25 0.70
    2024 2025
  = firstn (Z.to_nat (2025 - 2024 + 1))
      (calculate_net_worth_projection 100000 75000 0.03 0.07 0.02 0.25 0.70
         2024 2027).
Proof.
  split; [lia|].
  exact (longer_horizon_extends 100000 75000 0.03 0.07 0.02 0.25 0.70 2024
           2025 2027 ltac:(lia)).
Defined.

Lemma projection_restarts_witness :
  (2024 - 1 <= 2025 <= 2027)%Z /\
  calculate_net_worth_projection 100000 75000 0.03 0.07 0.02 0.25 0.70
    2024 2027
  = calculate_net_worth_projection 100000 75000 0.03 0.07 0.02 0.25 0.70
      2024 2025
    ++ calculate_net_worth_projection
         (fst (running_state 100000 75000 0.03 0.07 0.02 0.25 0.70
                 (Z.to_nat (2025 - 2024 + 1))))
         (snd (running_state 100000 75000 0.03 0.07 0.02 0.25 0.70
                 (Z.to_nat (2025 - 2024 + 1))))
         0.03 0.07 0.02 0.25 0.70 (2025 + 1) 2027.
Proof.
  split; [lia|].
  exact (projection_restarts 100000 75000 0.03 0.07 0.02 0.25 0.70 2024
           2027 2025 ltac:(lia)).
Defined.

Lemma zero_growth_rates_witness :
  ((0 : float) = 0 /\ (Z.of_nat 0 <= 2026 - 2024)%Z) /\
  current_net_worth (loop_entry 100000 75000 0 0 0.02 0.25 0.70 2024 2026 1)
  = current_net_worth
      (loop_entry 100000 75000 0 0 0.02 0.25 0.70 2024 2026 0)
    + full_savings 0.02 0.25 0.70
        (current_net_worth
           (loop_entry 100000 75000 0 0 0.02 0.25 0.70 2024 2026 0))
        (current_salary
           (loop_entry 100000 75000 0 0 0.02 0.25 0.70 2024 2026 0)).
Proof.
  split; [split; [reflexivity|lia]|].
  exact (proj2 (zero_growth_rates 100000 75000 0 0 0.02 0.25 0.70 2024 2026
                  eq_refl eq_refl) 0%nat ltac:(lia)).
Defined.

Lemma zero_tax_rate_witness :
  exists snap,
    nth_error
      (calculate_net_worth_projection 100000 75000 0.03 0.07 0.02 0 0.70
         2024 2025) 1
    = Some snap /\
    After_tax_Income snap = Total_Income snap.
Proof.
  eexists. split; [vm_compute; reflexivity|].
  apply (zero_tax_rate 100000 75000 0.03 0.07 0.02 0 0.70 2024 2025 eq_refl
           1%nat).
  vm_compute. reflexivity.
Defined.

Lemma zero_expense_ratio_witness :
  exists snap,
    nth_error
      (calculate_net_worth_projection 100000 75000 0.03 0.07 0.02 0.25 0
         2024 2025) 0
    = Some snap /\
    is_finite ((75000 + 100000 * 0.02) * (1 - 0.25)) = true /\
    (Expenses snap =? 0) = true /\
    (Savings snap =? After_tax_Income snap) = true.
Proof.
  eexists. split; [vm_compute; reflexivity|]. split; [reflexivity|].
  match goal with
  | |- (Expenses ?r =? 0) = true /\ _ =>
      refine (zero_expense_ratio 100000 75000 0.03 0.07 0.02 0.25 0 2024
                2025 0%nat r eq_refl _ _)
  end.
  - vm_compute. reflexivity.
  - vm_compute. reflexivity.
Defined.

Lemma salaries_are_ordered_witness :
  exists snap_i snap_j,
    nth_error
      (calculate_net_worth_projection 100000 75000 0.03 0.07 0.02 0.25 0.70
         2024 2027) 1
    = Some snap_i /\
    nth_error
      (calculate_net_worth_projection 100000 75000 0.03 0.07 0.02 0.25 0.70
         2024 2027) 3
    = Some snap_j /\
    (0 <=? Salary snap_i) = true /\
    (0 <=? Salary snap_j) = true /\
    (Salary snap_i <=? Salary snap_j) = true.
Proof.
  do 2 eexists. split; [vm_compute; reflexivity|].
  split; [vm_compute; reflexivity|].
  match goal with
  | |- (0 <=? Salary ?ri) = true /\ (0 <=? Salary ?rj) = true /\ _ =>
      refine (salaries_are_ordered 100000 75000 0.03 0.07 0.02 0.25 0.70
                2024 2027 1%nat 3%nat ri rj eq_refl eq_refl eq_refl _ _ _)
  end.
  - lia.
  - vm_compute. reflexivity.
  - vm_compute. reflexivity.
Defined.

Lemma net_worth_never_falls_witness :
  exists snap_i snap_j,
    nth_error
      (calculate_net_worth_projection 100000 75000 0.03 0.07 0.02 0.25 0.70
         2024 2027) 0
    = Some snap_i /\
    nth_error
      (calculate_net_worth_projection 100000 75000 0.03 0.07 0.02 0.25 0.70
         2024 2027) 3
    = Some snap_j /\
    (0 <=? Net_Worth snap_i) = true /\
    (Net_Worth snap_i <=? Net_Worth snap_j) = true.
Proof.
  do 2 eexists. split; [vm_compute; reflexivity|].
  split; [vm_compute; reflexivity|].
  match goal with
  | |- (0 <=? Net_Worth ?ri) = true /\ (Net_Worth ?ri <=? Net_Worth ?rj) = _ =>
      refine (net_worth_never_falls 100000 75000 0.03 0.07 0.02 0.25 0.70
                2024 2027 0%nat 3%nat ri rj eq_refl eq_refl eq_refl eq_refl
                eq_refl eq_refl eq_refl eq_refl eq_refl eq_refl _ _ _ _)
  end.
  - lia.
  - vm_compute. reflexivity.
  - vm_compute. reflexivity.
  - vm_compute. reflexivity.
Defined.


Lemma salary_change_not_negative_witness :
  ((0 <=? 0.03) = true /\ is_finite 0.03 = true /\ (0 <=? 75000) = true /\
   (2024 <= 2027)%Z) /\
  exists s,
    summary_statistics
      (calculate_net_worth_projection 100000 75000 0.03 0.07 0.02 0.25 0.70
         2024 2027)
    = Py.Returned s /\
    (0 <=? metric_value (final_annual_salary s)) = true /\
    not_negative (metric_delta (final_annual_salary s)).
Proof.
  split; [repeat split; lia|].
  exact (salary_change_not_negative 100000 75000 0.03 0.07 0.02 0.25 0.70
           2024 2027 eq_refl eq_refl eq_refl ltac:(lia)).
Defined.

Lemma net_worth_change_not_negative_witness :
  ((0 <=? 100000) = true /\ (0 <=? 75000) = true /\ (0 <=? 0.02) = true /\
   (0 <=? 0.25) = true /\ (0.25 <=? 1) = true /\
   (0 <=? 0.70) = true /\ (0.70 <=? 1) = true /\
   (0 <=? 0.07) = true /\ is_finite 0.07 = true /\ (-1 <=? 0.03) = true /\
   (2024 <= 2027)%Z) /\
  exists s,
    summary_statistics
      (calculate_net_worth_projection 100000 75000 0.03 0.07 0.02 0.25 0.70
         2024 2027)
    = Py.Returned s /\
    (is_nan (metric_value (total_net_worth_growth s)) = false ->
     (0 <=? metric_value (total_net_worth_growth s)) = true /\
     not_negative (metric_delta (total_net_worth_growth s))).
Proof.
  split; [repeat split; lia|].
  exact (net_worth_change_not_negative 100000 75000 0.03 0.07 0.02 0.25
           0.70 2024 2027 eq_refl eq_refl eq_refl eq_refl eq_refl eq_refl
           eq_refl eq_refl eq_refl eq_refl ltac:(lia)).
Defined.

Lemma main_never_raises_witness :
  (2024 + 1 <= 2034)%Z /\
  exists df table s,
    main_outputs 100000 75000 3 7 2 25 70 2024 2034
    = Py.Returned (df, table, s) /\
    (2 <= length df)%nat /\
    length table = 9%nat.
Proof.
  split; [lia|].
  destruct (main_never_raises 100000 75000 3 7 2 25 70 2024 2034 ltac:(lia))
    as (df & table & s & _ & _ & H & Hd & Ht & _).
  exists df, table, s. repeat split; assumption.
Defined.

Lemma table_contains_base_run_witness :
  ((2024 <= 2034)%Z /\ nth_error growth_rates 2 = Some 8%Z /\
   nth_error tax_rates 1 = Some 25%Z) /\
  exists df table s r,
    main_outputs 100000 75000 3 (Py.float_of_int 8) 2 (Py.float_of_int 25)
      70 2024 2034
    = Py.Returned (df, table, s) /\
    nth_error table 2 = Some r /\
    nth_error r 1 = Some (metric_value (total_net_worth_growth s)).
Proof.
  split; [repeat split; lia|].
  exact (table_contains_base_run 100000 75000 3 2 70 2024 2034 2 1 8 25
           ltac:(lia) eq_refl eq_refl).
Defined.

End MoreConcreteRuns.
